(** * AgentTrace Python SDK: the event-delivery core

    A shallow embedding of the retrying transport ([transport/http.py]),
    the batching queue ([transport/batch.py]), the context store
    ([context.py]), the observation model ([client.py]), the [observe]
    wrappers ([decorators.py]) and the generation context manager
    ([generation.py]), followed by the properties established about them.

    Conventions of the embedding:
    - Python values of type [Any] are terms of [pyval]; [None] is [VNone].
    - An [Optional[str]] is an [option string].
    - [datetime] values are kept as their [isoformat()] rendering.
    - Readings of the environment ([datetime.utcnow()], [uuid.uuid4()],
      [time.time()]) are explicit arguments of the operation that reads
      them; the replies of the HTTP server are a function of the request
      number.
    - Wall-clock time of the queue is an integer number of milliseconds;
      the rounding of Python floats is not modelled.
    - Objects with identity (traces, spans, generations) live in a store
      indexed by references; the context slots hold references, so that
      code reaching an object through the context changes the object
      itself.
    - An event record is the value its body has when it is enqueued;
      the metadata dictionary that a record shares with its object is not
      followed after that, and no property below relies on it.
    - Threads act on the queue in atomic steps: one [add], one iteration
      of the worker loop, one [flush].
    - Logging is left out. *)

From Stdlib Require Import ZArith Lia.
From stdpp Require Import base option list gmap strings.

Set Warnings "-register-all".
Local Open Scope Z_scope.

(* ===================================================================== *)
(** * Part I: the model *)
(* ===================================================================== *)

(** ** Python values *)

Inductive pyval : Type :=
| VNone
| VBool (b : bool)
| VInt (z : Z)
| VStr (s : string)
| VList (l : list pyval)
| VDict (d : list (string * pyval)).

(** A [dict] with string keys, in insertion order. *)
Definition pydict : Type := list (string * pyval).

(** [d[k] = v]: overwrite in place when the key is present, append otherwise. *)
Fixpoint dict_set (k : string) (v : pyval) (d : pydict) : pydict :=
  match d with
  | [] => [(k, v)]
  | (k', v') :: d' =>
      if String.eqb k k' then (k', v) :: d' else (k', v') :: dict_set k v d'
  end.

(** [d.update(m)]. *)
Definition dict_update (d m : pydict) : pydict :=
  fold_left (fun acc kv => dict_set kv.1 kv.2 acc) m d.

(** [x is not None] on a value of type [Optional[Any]]. *)
Definition is_not_None (v : pyval) : bool :=
  match v with VNone => false | _ => true end.

(** [a or b] on an [Optional[str]]: [None] and the empty string are falsy. *)
Definition str_or (a : option string) (b : string) : string :=
  match a with
  | Some s => if String.eqb s "" then b else s
  | None => b
  end.

(** [m or {}] on an [Optional[dict]]. *)
Definition dict_or_empty (m : option pydict) : pydict :=
  match m with Some d => d | None => [] end.

(** An exception object: its class name, what [str(e)] returns, and whether
    the class derives from [Exception] (as opposed to [BaseException] only,
    like [KeyboardInterrupt] or [asyncio.CancelledError]). *)
Record exc : Type := Exc {
  exc_class : string;
  exc_str : string;
  exc_is_Exception : bool;
}.

(** Outcome of running user code. *)
Inductive outcome (A : Type) : Type :=
| Return (v : A)
| Raise (e : exc).
Arguments Return {A} v.
Arguments Raise {A} e.

(** An event record as handed to the queue: [{"type": ..., "body": {...}}]. *)
Record Event : Type := mkEvent {
  ev_type : string;
  ev_body : pydict;
}.

(* --------------------------------------------------------------------- *)
(** ** transport/http.py *)
(* --------------------------------------------------------------------- *)

Module HttpTransport.

(** The [Retry-After] header of a response, as [int(headers.get(..., 5))]
    sees it. *)
Inductive retry_after_header : Type :=
| HeaderAbsent
| HeaderInt (n : Z)
| HeaderMalformed.

(** What one [self._client.post(...)] does. *)
Inductive reply : Type :=
| Response (status_code : Z) (retry_after : retry_after_header)
| TimeoutException
| RequestError
| OtherException.

(** The server (and network) as seen by one [send_batch] call: the reply
    to the request number [k] of that call, counted from 0. *)
Definition server : Type := nat -> reply.

(** Result of [send_batch], with the observable effects: the number of
    requests made and the [time.sleep] calls, in milliseconds. *)
Record result : Type := mkResult {
  ok : bool;
  requests : nat;
  slept : list Z;
}.

Definition is_accepted (c : Z) : bool :=
  (c =? 200) || (c =? 201) || (c =? 207).

(** [(2**attempt) * 0.5] seconds. *)
Definition backoff (attempt : nat) : Z := 2 ^ Z.of_nat attempt * 500.

(** The body of [for attempt in range(self.max_retries)], from iteration
    [attempt] on, with [remaining] iterations left. *)
Fixpoint attempts (srv : server) (attempt remaining : nat) (sl : list Z)
  : result :=
  match remaining with
  | O => mkResult false attempt sl
  | S remaining' =>
      match srv attempt with
      | Response c h =>
          if is_accepted c then mkResult true (S attempt) sl
          else if c =? 429 then
            match h with
            | HeaderAbsent =>
                attempts srv (S attempt) remaining' (sl ++ [5000])
            | HeaderInt n =>
                (* time.sleep of a negative length raises ValueError,
                   which the generic handler turns into False *)
                if n <? 0 then mkResult false (S attempt) sl
                else attempts srv (S attempt) remaining' (sl ++ [n * 1000])
            | HeaderMalformed => mkResult false (S attempt) sl
            end
          else if c >=? 500 then
            attempts srv (S attempt) remaining' (sl ++ [backoff attempt])
          else mkResult false (S attempt) sl
      | TimeoutException | RequestError =>
          attempts srv (S attempt) remaining' (sl ++ [backoff attempt])
      | OtherException => mkResult false (S attempt) sl
      end
  end.

Definition send_batch {E : Type} (max_retries : Z) (srv : server)
    (events : list E) : result :=
  match events with
  | [] => mkResult true 0 []
  | _ :: _ => attempts srv 0 (Z.to_nat max_retries) []
  end.

Import Stdlib.Strings.Ascii.

(** [host.rstrip("/")] of [__init__]. *)
Fixpoint rstrip_slash (s : string) : string :=
  match s with
  | EmptyString => EmptyString
  | String c s' =>
      match rstrip_slash s' with
      | EmptyString =>
          if Ascii.eqb c "/"%char then EmptyString else String c EmptyString
      | r => String c r
      end
  end.

(** What [response.json()] does on the reply to request [k]: it returns
    the decoded body or raises. *)
Inductive json_body : Type :=
| JsonOk (v : pyval)
| JsonError.

(** Result of [get] and [post]: the returned value ([VNone] for Python's
    [None]), the number of requests made and the sleeps. *)
Record fetched : Type := mkFetched {
  data : pyval;
  fetch_requests : nat;
  fetch_slept : list Z;
}.

Definition json_or_None (b : json_body) : pyval :=
  match b with JsonOk v => v | JsonError => VNone end.

(** The loop of [get], from iteration [attempt] on. *)
Fixpoint get_attempts (srv : server) (body : nat -> json_body)
    (attempt remaining : nat) (sl : list Z) : fetched :=
  match remaining with
  | O => mkFetched VNone attempt sl
  | S remaining' =>
      match srv attempt with
      | Response c h =>
          if c =? 200 then mkFetched (json_or_None (body attempt)) (S attempt) sl
          else if c =? 404 then mkFetched VNone (S attempt) sl
          else if c =? 429 then
            match h with
            | HeaderAbsent =>
                get_attempts srv body (S attempt) remaining' (sl ++ [5000])
            | HeaderInt n =>
                if n <? 0 then mkFetched VNone (S attempt) sl
                else get_attempts srv body (S attempt) remaining'
                       (sl ++ [n * 1000])
            | HeaderMalformed => mkFetched VNone (S attempt) sl
            end
          else if c >=? 500 then
            get_attempts srv body (S attempt) remaining' (sl ++ [backoff attempt])
          else mkFetched VNone (S attempt) sl
      | TimeoutException | RequestError =>
          get_attempts srv body (S attempt) remaining' (sl ++ [backoff attempt])
      | OtherException => mkFetched VNone (S attempt) sl
      end
  end.

Definition get (max_retries : Z) (srv : server) (body : nat -> json_body)
  : fetched :=
  get_attempts srv body 0 (Z.to_nat max_retries) [].



End HttpTransport.

Module AsyncHttpTransport.
Import HttpTransport.

(** The loop of [send_batch]: its single handler is [except Exception],
    which sleeps and goes on, whatever was raised ([int(...)] on a
    malformed header included); [asyncio.sleep] accepts a negative
    delay. *)
Fixpoint attempts (srv : server) (attempt remaining : nat) (sl : list Z)
  : result :=
  match remaining with
  | O => mkResult false attempt sl
  | S remaining' =>
      match srv attempt with
      | Response c h =>
          if is_accepted c then mkResult true (S attempt) sl
          else if c =? 429 then
            match h with
            | HeaderAbsent => attempts srv (S attempt) remaining' (sl ++ [5000])
            | HeaderInt n =>
                attempts srv (S attempt) remaining' (sl ++ [n * 1000])
            | HeaderMalformed =>
                attempts srv (S attempt) remaining' (sl ++ [backoff attempt])
            end
          else if c >=? 500 then
            attempts srv (S attempt) remaining' (sl ++ [backoff attempt])
          else mkResult false (S attempt) sl
      | TimeoutException | RequestError | OtherException =>
          attempts srv (S attempt) remaining' (sl ++ [backoff attempt])
      end
  end.

Definition send_batch {E : Type} (max_retries : Z) (srv : server)
    (events : list E) : result :=
  match events with
  | [] => mkResult true 0 []
  | _ :: _ => attempts srv 0 (Z.to_nat max_retries) []
  end.

End AsyncHttpTransport.

(* --------------------------------------------------------------------- *)
(** ** transport/batch.py *)
(* --------------------------------------------------------------------- *)

Module BatchQueue.
Section WithEvents.
Context {E : Type}.

(** The queue object, the local [last_flush] of its worker thread, and
    the batches handed to [transport.send_batch] so far (oldest first).
    [_queue] is the [queue.Queue], oldest element first. *)
Record t : Type := mk {
  _flush_at : Z;
  _flush_interval : Z;
  _max_queue_size : Z;
  _queue : list E;
  _batch : list E;
  _running : bool;
  last_flush : Z;
  sent : list (list E);
}.

(** [__init__]; the worker starts at once and reads [time.time()]. *)
Definition init (flush_at flush_interval max_queue_size now : Z) : t :=
  mk flush_at flush_interval max_queue_size [] [] true now [].

(** [queue.Queue.full()]: a [maxsize <= 0] queue is unbounded. *)
Definition full (q : t) : bool :=
  (0 <? _max_queue_size q) && (_max_queue_size q <=? Z.of_nat (length (_queue q))).

Definition add (event : E) (q : t) : bool * t :=
  if full q then (false, q)
  else (true, mk (_flush_at q) (_flush_interval q) (_max_queue_size q)
                 (_queue q ++ [event]) (_batch q) (_running q)
                 (last_flush q) (sent q)).

(** [_send_batch]: the outcome of the transport is only logged. *)
Definition _send_batch (events : list E) (q : t) : t :=
  match events with
  | [] => q
  | _ :: _ => mk (_flush_at q) (_flush_interval q) (_max_queue_size q)
                 (_queue q) (_batch q) (_running q) (last_flush q)
                 (sent q ++ [events])
  end.

(** [flush]: [events] first receives the drained queue, then is extended
    with the accumulated batch. *)
Definition flush (q : t) : t :=
  let events := _queue q ++ _batch q in
  let q' := mk (_flush_at q) (_flush_interval q) (_max_queue_size q)
               [] [] (_running q) (last_flush q) (sent q) in
  _send_batch events q'.

Definition stop (q : t) : t :=
  flush (mk (_flush_at q) (_flush_interval q) (_max_queue_size q)
            (_queue q) (_batch q) false (last_flush q) (sent q)).

(** The worker's [self._queue.get(timeout=0.1)] followed by the append
    under the lock; on [queue.Empty] nothing moves. *)
Definition drain_one (q : t) : t :=
  match _queue q with
  | [] => q
  | event :: rest =>
      mk (_flush_at q) (_flush_interval q) (_max_queue_size q)
         rest (_batch q ++ [event]) (_running q) (last_flush q) (sent q)
  end.

Definition should_flush (now : Z) (q : t) : bool :=
  (_flush_at q <=? Z.of_nat (length (_batch q)))
  || (negb (Nat.eqb (length (_batch q)) 0)
      && (_flush_interval q <=? now - last_flush q)).

(** The check of one iteration, [now] being its [time.time()]. *)
Definition check_and_send (now : Z) (q : t) : t :=
  if should_flush now q then
    let events := _batch q in
    _send_batch events
      (mk (_flush_at q) (_flush_interval q) (_max_queue_size q)
          (_queue q) [] (_running q) now (sent q))
  else q.

(** One iteration of the [while self._running] loop of [_flush_loop]. *)
Definition flush_loop_iter (now : Z) (q : t) : t :=
  if _running q then check_and_send now (drain_one q) else q.

(** What the threads around one queue can do, one step each. *)
Inductive op : Type :=
| Add (event : E)
| Flush
| WorkerIter (now : Z)
| Stop.

Definition step (o : op) (q : t) : t :=
  match o with
  | Add e => (add e q).2
  | Flush => flush q
  | WorkerIter now => flush_loop_iter now q
  | Stop => stop q
  end.

Definition run (ops : list op) (q : t) : t :=
  fold_left (fun q o => step o q) ops q.

(** Everything the transport has received, in the order of reception:
    batch after batch, each in its own order. *)
Definition delivered (q : t) : list E := concat (sent q).

End WithEvents.
Arguments t E : clear implicits.
Arguments op E : clear implicits.
End BatchQueue.

Module AsyncBatchQueue.
Section WithEvents.
Context {E : Type}.

Record t : Type := mk {
  _flush_at : Z;
  _flush_interval : Z;
  _max_queue_size : Z;
  _batch : list E;
  _last_flush : Z;
  sent : list (list E);
}.

Definition init (flush_at flush_interval max_queue_size now : Z) : t :=
  mk flush_at flush_interval max_queue_size [] now [].

(** [flush], [now] being the [time.time()] it reads. *)
Definition flush (now : Z) (q : t) : t :=
  match _batch q with
  | [] => q
  | events =>
      mk (_flush_at q) (_flush_interval q) (_max_queue_size q)
         [] now (sent q ++ [events])
  end.

Definition add (event : E) (now : Z) (q : t) : bool * t :=
  if _max_queue_size q <=? Z.of_nat (length (_batch q)) then (false, q)
  else
    let q' := mk (_flush_at q) (_flush_interval q) (_max_queue_size q)
                 (_batch q ++ [event]) (_last_flush q) (sent q) in
    if _flush_at q' <=? Z.of_nat (length (_batch q')) then (true, flush now q')
    else (true, q').

Definition check_flush (now : Z) (q : t) : t :=
  if negb (Nat.eqb (length (_batch q)) 0)
     && (_flush_interval q <=? now - _last_flush q)
  then flush now q else q.

Definition stop (now : Z) (q : t) : t := flush now q.

Definition pending_count (q : t) : nat := length (_batch q).

End WithEvents.
Arguments t E : clear implicits.
End AsyncBatchQueue.

(* --------------------------------------------------------------------- *)
(** ** context.py *)
(* --------------------------------------------------------------------- *)

Module context.

(** What a [contextvars.ContextVar] created with [default=None] holds in
    the current context: nothing yet, or a value (possibly [None]). *)
Inductive slot (A : Type) : Type :=
| Unset
| Holds (v : option A).
Arguments Unset {A}.
Arguments Holds {A} v.

(** [ContextVar.get()]. *)
Definition get {A} (s : slot A) : option A :=
  match s with Unset => None | Holds v => v end.

(** A [contextvars.Token]: the state to go back to, and whether it was
    used already. *)
Record Token (A : Type) : Type := mkToken {
  old_value : slot A;
  used : bool;
}.
Arguments mkToken {A} _ _.
Arguments old_value {A} _.
Arguments used {A} _.

(** [ContextVar.set(v)] returns the token. *)
Definition set {A} (v : option A) (s : slot A) : slot A * Token A :=
  (Holds v, mkToken s false).

Definition RuntimeError : exc :=
  Exc "RuntimeError" "Token has already been used once" true.

(** [ContextVar.reset(token)] raises on a token that was used before. *)
Definition reset {A} (tok : Token A) (s : slot A) : exc + slot A * Token A :=
  if used tok then inl RuntimeError
  else inr (old_value tok, mkToken (old_value tok) true).

Section Store.
Context {C T O : Type}.

(** The three module-level variables. *)
Record store : Type := mkStore {
  _client_var : slot C;
  _trace_var : slot T;
  _observation_var : slot O;
}.

Definition empty : store := mkStore Unset Unset Unset.

Definition set_client (client : option C) (c : store) : store :=
  mkStore (set client (_client_var c)).1 (_trace_var c) (_observation_var c).
Definition get_client (c : store) : option C := get (_client_var c).

Definition set_current_trace (trace : option T) (c : store) : store :=
  mkStore (_client_var c) (set trace (_trace_var c)).1 (_observation_var c).
Definition get_current_trace (c : store) : option T := get (_trace_var c).

Definition set_current_observation (observation : option O) (c : store) : store :=
  mkStore (_client_var c) (_trace_var c) (set observation (_observation_var c)).1.
Definition get_current_observation (c : store) : option O :=
  get (_observation_var c).

(** [class TraceContext]. *)
Record TraceContext : Type := mkTraceContext {
  tc_trace : T;
  tc_token : option (Token T);
}.

Definition TraceContext_init (trace : T) : TraceContext :=
  mkTraceContext trace None.

Definition TraceContext_enter (m : TraceContext) (c : store)
  : T * TraceContext * store :=
  let '(s, tok) := set (Some (tc_trace m)) (_trace_var c) in
  (tc_trace m, mkTraceContext (tc_trace m) (Some tok),
   mkStore (_client_var c) s (_observation_var c)).

Definition TraceContext_exit (m : TraceContext) (c : store)
  : exc + TraceContext * store :=
  match tc_token m with
  | None => inr (m, c)
  | Some tok =>
      match reset tok (_trace_var c) with
      | inl e => inl e
      | inr (s, tok') =>
          inr (mkTraceContext (tc_trace m) (Some tok'),
               mkStore (_client_var c) s (_observation_var c))
      end
  end.

(** [class ObservationContext]. *)
Record ObservationContext : Type := mkObservationContext {
  oc_observation : O;
  oc_token : option (Token O);
}.

Definition ObservationContext_init (observation : O) : ObservationContext :=
  mkObservationContext observation None.

Definition ObservationContext_enter (m : ObservationContext) (c : store)
  : O * ObservationContext * store :=
  let '(s, tok) := set (Some (oc_observation m)) (_observation_var c) in
  (oc_observation m, mkObservationContext (oc_observation m) (Some tok),
   mkStore (_client_var c) (_trace_var c) s).

Definition ObservationContext_exit (m : ObservationContext) (c : store)
  : exc + ObservationContext * store :=
  match oc_token m with
  | None => inr (m, c)
  | Some tok =>
      match reset tok (_observation_var c) with
      | inl e => inl e
      | inr (s, tok') =>
          inr (mkObservationContext (oc_observation m) (Some tok'),
               mkStore (_client_var c) (_trace_var c) s)
      end
  end.

(** Code running inside a scope: it sees and may change the store, and
    returns or raises. *)
Definition body (A : Type) : Type := store -> store * outcome A.

(** [with TraceContext(trace): body]. [__exit__] returns [None], so an
    exception of the body propagates after it; an exception of
    [__exit__] itself replaces the outcome. *)
Definition with_TraceContext {A} (trace : T) (b : body A) : body A :=
  fun c =>
    let '(_, m, c1) := TraceContext_enter (TraceContext_init trace) c in
    let '(c2, out) := b c1 in
    match TraceContext_exit m c2 with
    | inr (_, c3) => (c3, out)
    | inl e => (c2, Raise e)
    end.

(** [with ObservationContext(observation): body]. *)
Definition with_ObservationContext {A} (observation : O) (b : body A) : body A :=
  fun c =>
    let '(_, m, c1) :=
      ObservationContext_enter (ObservationContext_init observation) c in
    let '(c2, out) := b c1 in
    match ObservationContext_exit m c2 with
    | inr (_, c3) => (c3, out)
    | inl e => (c2, Raise e)
    end.

(** [run_in_trace_context]: [try: return func() finally: reset(token)]. *)
Definition run_in_trace_context {A} (trace : T) (func : body A) : body A :=
  fun c =>
    let '(s, tok) := set (Some trace) (_trace_var c) in
    let '(c2, out) := func (mkStore (_client_var c) s (_observation_var c)) in
    match reset tok (_trace_var c2) with
    | inr (s', _) => (mkStore (_client_var c2) s' (_observation_var c2), out)
    | inl e => (c2, Raise e)
    end.

(** Scopes nested in one another and put one after the other, the way
    [with] blocks nest in a program; a leaf is code that leaves the
    store alone and returns or raises. *)
Inductive scopes : Type :=
| Leaf (out : outcome unit)
| InTrace (trace : T) (inner : scopes)
| InObservation (observation : O) (inner : scopes)
| Then (first second : scopes).

Fixpoint exec (p : scopes) : body unit :=
  match p with
  | Leaf out => fun c => (c, out)
  | InTrace trace inner => with_TraceContext trace (exec inner)
  | InObservation observation inner =>
      with_ObservationContext observation (exec inner)
  | Then first second =>
      fun c =>
        match exec first c with
        | (c1, Return _) => exec second c1
        | (c1, Raise e) => (c1, Raise e)
        end
  end.

(** The current trace and observation that the leaves of [p] see, from
    left to right, up to the first leaf that raises. *)
Fixpoint seen (p : scopes) (c : store)
  : list (option T * option O) * outcome unit :=
  match p with
  | Leaf out => ([(get_current_trace c, get_current_observation c)], out)
  | InTrace trace inner =>
      seen inner (TraceContext_enter (TraceContext_init trace) c).2
  | InObservation observation inner =>
      seen inner
        (ObservationContext_enter (ObservationContext_init observation) c).2
  | Then first second =>
      match seen first c with
      | (l, Return _) =>
          let r := seen second (exec first c).1 in (l ++ r.1, r.2)
      | (l, Raise e) => (l, Raise e)
      end
  end.

End Store.
Arguments store C T O : clear implicits.
Arguments TraceContext T : clear implicits.
Arguments ObservationContext O : clear implicits.
Arguments scopes T O : clear implicits.
Arguments body C T O A : clear implicits.
End context.

(* --------------------------------------------------------------------- *)
(** ** client.py *)
(* --------------------------------------------------------------------- *)

Module client.

(** References to the objects of the three classes. *)
Definition trace_ref : Type := nat.
Inductive obs_ref : Type :=
| SpanRef (r : nat)
| GenerationRef (r : nat).

Record Trace : Type := mkTrace {
  trace_id : string;
  trace_name : string;
  trace_user_id : option string;
  trace_session_id : option string;
  trace_metadata : pydict;
  trace_tags : list string;
  trace_input : pyval;
  trace_public : bool;
  trace_start_time : string;
  trace_end_time : option string;
  trace_output : pyval;
  trace_ended : bool;
}.

Record Span : Type := mkSpan {
  span_trace_id : string;
  span_id : string;
  span_name : string;
  span_parent_observation_id : option string;
  span_metadata : pydict;
  span_input : pyval;
  span_level : string;
  span_output : pyval;
  span_start_time : string;
  span_end_time : option string;
  span_ended : bool;
}.

Record Generation : Type := mkGeneration {
  gen_trace_id : string;
  gen_id : string;
  gen_name : string;
  gen_parent_observation_id : option string;
  gen_model : option string;
  gen_model_parameters : pydict;
  gen_input : pyval;
  gen_metadata : pydict;
  gen_level : string;
  gen_output : pyval;
  gen_start_time : string;
  gen_end_time : option string;
  gen_usage : pyval;
  gen_ended : bool;
}.

(** One [AgentTrace] client ([enabled], [_batch_queue]), the context
    store, and the objects created so far. *)
Record World : Type := mkWorld {
  enabled : bool;
  _batch_queue : BatchQueue.t Event;
  ctx : context.store unit trace_ref obs_ref;
  traces : gmap nat Trace;
  spans : gmap nat Span;
  generations : gmap nat Generation;
}.

Definition with_enabled (b : bool) (w : World) : World :=
  mkWorld b (_batch_queue w) (ctx w) (traces w) (spans w) (generations w).
Definition with_queue (q : BatchQueue.t Event) (w : World) : World :=
  mkWorld (enabled w) q (ctx w) (traces w) (spans w) (generations w).
Definition with_ctx (c : context.store unit trace_ref obs_ref) (w : World) : World :=
  mkWorld (enabled w) (_batch_queue w) c (traces w) (spans w) (generations w).
Definition with_traces (m : gmap nat Trace) (w : World) : World :=
  mkWorld (enabled w) (_batch_queue w) (ctx w) m (spans w) (generations w).
Definition with_spans (m : gmap nat Span) (w : World) : World :=
  mkWorld (enabled w) (_batch_queue w) (ctx w) (traces w) m (generations w).
Definition with_generations (m : gmap nat Generation) (w : World) : World :=
  mkWorld (enabled w) (_batch_queue w) (ctx w) (traces w) (spans w) m.

(** [AgentTrace.__init__]: the queue of the client has the default
    capacity; the client registers itself in the context. *)
Definition AgentTrace_init (enabled : bool) (flush_at flush_interval now : Z)
    (c : context.store unit trace_ref obs_ref) : World :=
  mkWorld enabled (BatchQueue.init flush_at flush_interval 10000 now)
          (context.set_client (Some tt) c) ∅ ∅ ∅.

(** [self._client._batch_queue.add(event)], the result being dropped. *)
Definition enqueue (e : Event) (w : World) : World :=
  with_queue (BatchQueue.add e (_batch_queue w)).2 w.

Definition opt_str (o : option string) : pyval :=
  match o with Some s => VStr s | None => VNone end.

(** [x.isoformat() + "Z"]. *)
Definition iso_z (t : string) : pyval := VStr (t +:+ "Z").

(** *** class Trace *)

Definition Trace__send_create (t : Trace) (w : World) : World :=
  if negb (enabled w) then w
  else enqueue
    (mkEvent "trace-create"
       [("id", VStr (trace_id t));
        ("name", VStr (trace_name t));
        ("userId", opt_str (trace_user_id t));
        ("sessionId", opt_str (trace_session_id t));
        ("metadata", VDict (trace_metadata t));
        ("tags", VList (VStr <$> trace_tags t));
        ("input", trace_input t);
        ("public", VBool (trace_public t));
        ("timestamp", iso_z (trace_start_time t))]) w.

(** Keyword arguments of [AgentTrace.trace]. *)
Record trace_args : Type := mkTraceArgs {
  ta_name : string;
  ta_id : option string;
  ta_user_id : option string;
  ta_session_id : option string;
  ta_metadata : option pydict;
  ta_tags : option (list string);
  ta_input : pyval;
  ta_public : bool;
}.

(** [Trace.__init__], at the fresh reference [r]. *)
Definition Trace_init (r : nat) (id name : string)
    (user_id session_id : option string) (metadata : pydict)
    (tags : list string) (input : pyval) (public : bool) (now : string)
    (w : World) : World :=
  let t := mkTrace id name user_id session_id metadata tags input public
                   now None VNone false in
  Trace__send_create t (with_traces (<[r := t]> (traces w)) w).

(** [AgentTrace.trace]; [uuid4] and [now] are what [uuid.uuid4()] and
    [datetime.utcnow()] return during the call. *)
Definition AgentTrace_trace (a : trace_args) (uuid4 now : string) (w : World)
  : trace_ref * World :=
  let r := fresh (dom (traces w)) in
  let w1 := Trace_init r (str_or (ta_id a) uuid4) (ta_name a) (ta_user_id a)
              (ta_session_id a) (dict_or_empty (ta_metadata a))
              (default [] (ta_tags a)) (ta_input a) (ta_public a) now w in
  (r, with_ctx (context.set_current_trace (Some r) (ctx w1)) w1).

(** Keyword arguments of [Trace.update]. *)
Record update_args : Type := mkUpdateArgs {
  ua_name : option string;
  ua_user_id : option string;
  ua_session_id : option string;
  ua_metadata : option pydict;
  ua_tags : option (list string);
  ua_input : pyval;
  ua_output : pyval;
  ua_public : option bool;
}.

Definition no_update : update_args :=
  mkUpdateArgs None None None None None VNone VNone None.

Definition apply_update (a : update_args) (t : Trace) : Trace :=
  mkTrace (trace_id t)
    (default (trace_name t) (ua_name a))
    (match ua_user_id a with Some u => Some u | None => trace_user_id t end)
    (match ua_session_id a with Some u => Some u | None => trace_session_id t end)
    (match ua_metadata a with
     | Some m => dict_update (trace_metadata t) m
     | None => trace_metadata t end)
    (default (trace_tags t) (ua_tags a))
    (if is_not_None (ua_input a) then ua_input a else trace_input t)
    (default (trace_public t) (ua_public a))
    (trace_start_time t) (trace_end_time t)
    (if is_not_None (ua_output a) then ua_output a else trace_output t)
    (trace_ended t).

Definition trace_update_event (t : Trace) : Event :=
  mkEvent "trace-update"
    [("id", VStr (trace_id t));
     ("name", VStr (trace_name t));
     ("userId", opt_str (trace_user_id t));
     ("sessionId", opt_str (trace_session_id t));
     ("metadata", VDict (trace_metadata t));
     ("tags", VList (VStr <$> trace_tags t));
     ("input", trace_input t);
     ("output", trace_output t);
     ("public", VBool (trace_public t))].

(** [Trace.update] on the trace at [r]. *)
Definition Trace_update (r : trace_ref) (a : update_args) (w : World) : World :=
  match traces w !! r with
  | None => w
  | Some t =>
      let t' := apply_update a t in
      let w1 := with_traces (<[r := t']> (traces w)) w in
      if enabled w1 then enqueue (trace_update_event t') w1 else w1
  end.

(** [Trace.end]. *)
Definition Trace_end (r : trace_ref) (output : pyval) (now : string)
    (w : World) : World :=
  match traces w !! r with
  | None => w
  | Some t =>
      if trace_ended t then w
      else
        let t1 := mkTrace (trace_id t) (trace_name t) (trace_user_id t)
                    (trace_session_id t) (trace_metadata t) (trace_tags t)
                    (trace_input t) (trace_public t) (trace_start_time t)
                    (Some now)
                    (if is_not_None output then output else trace_output t)
                    true in
        let w1 := with_traces (<[r := t1]> (traces w)) w in
        let w2 := Trace_update r
                    (mkUpdateArgs None None None None None VNone
                                  (trace_output t1) None) w1 in
        with_ctx (context.set_current_trace None (ctx w2)) w2
  end.

(** *** class Span *)

Definition Span__send_create (sp : Span) (w : World) : World :=
  if negb (enabled w) then w
  else enqueue
    (mkEvent "span-create"
       [("id", VStr (span_id sp));
        ("traceId", VStr (span_trace_id sp));
        ("parentObservationId", opt_str (span_parent_observation_id sp));
        ("name", VStr (span_name sp));
        ("metadata", VDict (span_metadata sp));
        ("input", span_input sp);
        ("level", VStr (span_level sp));
        ("startTime", iso_z (span_start_time sp))]) w.

(** [Span.__init__], at the fresh reference [r]. *)
Definition Span_init (r : nat) (trace_id id name : string)
    (parent_observation_id : option string) (metadata : option pydict)
    (input : pyval) (level : string) (now : string) (w : World) : World :=
  let sp := mkSpan trace_id id name parent_observation_id
                   (dict_or_empty metadata) input level VNone now None false in
  Span__send_create sp (with_spans (<[r := sp]> (spans w)) w).

Definition span_update_event (sp : Span) : Event :=
  mkEvent "span-update"
    [("id", VStr (span_id sp));
     ("output", span_output sp);
     ("endTime", match span_end_time sp with
                 | Some t => iso_z t | None => VNone end)].

(** [Span.end]. *)
Definition Span_end (r : nat) (output : pyval) (now : string) (w : World)
  : World :=
  match spans w !! r with
  | None => w
  | Some sp =>
      if span_ended sp then w
      else
        let sp' := mkSpan (span_trace_id sp) (span_id sp) (span_name sp)
                     (span_parent_observation_id sp) (span_metadata sp)
                     (span_input sp) (span_level sp)
                     (if is_not_None output then output else span_output sp)
                     (span_start_time sp) (Some now) true in
        let w1 := with_spans (<[r := sp']> (spans w)) w in
        if enabled w1 then enqueue (span_update_event sp') w1 else w1
  end.

(** *** class Generation *)

Definition Generation__send_create (g : Generation) (w : World) : World :=
  if negb (enabled w) then w
  else enqueue
    (mkEvent "generation-create"
       [("id", VStr (gen_id g));
        ("traceId", VStr (gen_trace_id g));
        ("parentObservationId", opt_str (gen_parent_observation_id g));
        ("name", VStr (gen_name g));
        ("model", opt_str (gen_model g));
        ("modelParameters", VDict (gen_model_parameters g));
        ("input", gen_input g);
        ("metadata", VDict (gen_metadata g));
        ("level", VStr (gen_level g));
        ("startTime", iso_z (gen_start_time g))]) w.

(** [Generation.__init__], at the fresh reference [r]. *)
Definition Generation_init (r : nat) (trace_id id name : string)
    (parent_observation_id model : option string)
    (model_parameters : option pydict) (input : pyval)
    (metadata : option pydict) (level : string) (now : string) (w : World)
  : World :=
  let g := mkGeneration trace_id id name parent_observation_id model
             (dict_or_empty model_parameters) input (dict_or_empty metadata)
             level VNone now None VNone false in
  Generation__send_create g (with_generations (<[r := g]> (generations w)) w).

Definition generation_update_event (g : Generation) : Event :=
  mkEvent "generation-update"
    [("id", VStr (gen_id g));
     ("output", gen_output g);
     ("usage", gen_usage g);
     ("model", opt_str (gen_model g));
     ("endTime", match gen_end_time g with
                 | Some t => iso_z t | None => VNone end)].

(** [Generation.end]. *)
Definition Generation_end (r : nat) (output usage : pyval)
    (model : option string) (now : string) (w : World) : World :=
  match generations w !! r with
  | None => w
  | Some g =>
      if gen_ended g then w
      else
        let g' := mkGeneration (gen_trace_id g) (gen_id g) (gen_name g)
                    (gen_parent_observation_id g)
                    (match model with Some m => Some m | None => gen_model g end)
                    (gen_model_parameters g) (gen_input g) (gen_metadata g)
                    (gen_level g)
                    (if is_not_None output then output else gen_output g)
                    (gen_start_time g) (Some now)
                    (if is_not_None usage then usage else gen_usage g)
                    true in
        let w1 := with_generations (<[r := g']> (generations w)) w in
        if enabled w1 then enqueue (generation_update_event g') w1 else w1
  end.

(** *** Children of a trace *)

(** [self.id] read through a reference. Every reference the model hands
    out denotes a stored object; on any other one the read gives [""]. *)
Definition id_of_trace (r : trace_ref) (w : World) : string :=
  default "" (trace_id <$> traces w !! r).

(** [observation.id]. *)
Definition id_of_observation (o : obs_ref) (w : World) : string :=
  match o with
  | SpanRef r => default "" (span_id <$> spans w !! r)
  | GenerationRef r => default "" (gen_id <$> generations w !! r)
  end.

(** Keyword arguments of [Trace.span]. *)
Record span_args : Type := mkSpanArgs {
  sa_name : string;
  sa_id : option string;
  sa_parent_observation_id : option string;
  sa_metadata : option pydict;
  sa_input : pyval;
  sa_level : string;
}.

(** [Trace.span] on the trace at [r]. *)
Definition Trace_span (r : trace_ref) (a : span_args) (uuid4 now : string)
    (w : World) : obs_ref * World :=
  let n := fresh (dom (spans w)) in
  (SpanRef n,
   Span_init n (id_of_trace r w) (str_or (sa_id a) uuid4) (sa_name a)
     (sa_parent_observation_id a) (sa_metadata a) (sa_input a) (sa_level a)
     now w).

(** Keyword arguments of [Trace.generation]. *)
Record generation_args : Type := mkGenerationArgs {
  ga_name : string;
  ga_id : option string;
  ga_parent_observation_id : option string;
  ga_model : option string;
  ga_model_parameters : option pydict;
  ga_input : pyval;
  ga_metadata : option pydict;
  ga_level : string;
}.

(** [Trace.generation] on the trace at [r]. *)
Definition Trace_generation (r : trace_ref) (a : generation_args)
    (uuid4 now : string) (w : World) : obs_ref * World :=
  let n := fresh (dom (generations w)) in
  (GenerationRef n,
   Generation_init n (id_of_trace r w) (str_or (ga_id a) uuid4) (ga_name a)
     (ga_parent_observation_id a) (ga_model a) (ga_model_parameters a)
     (ga_input a) (ga_metadata a) (ga_level a) now w).

(** [observation.end(output=...)] on a span or a generation. *)
Definition Observation_end (o : obs_ref) (output : pyval) (now : string)
    (w : World) : World :=
  match o with
  | SpanRef r => Span_end r output now w
  | GenerationRef r => Generation_end r output VNone None now w
  end.

(** The parent recorded in the object at [o]. *)
Definition parent_of (o : obs_ref) (w : World) : option (option string) :=
  match o with
  | SpanRef r => span_parent_observation_id <$> spans w !! r
  | GenerationRef r => gen_parent_observation_id <$> generations w !! r
  end.

(** *** Scores *)

Record score_args : Type := mkScoreArgs {
  sc_name : string;
  sc_value : pyval;
  sc_observation_id : option string;
  sc_data_type : string;
  sc_comment : option string;
}.

(** [AgentTrace.score]. *)
Definition AgentTrace_score (trace_id : string) (a : score_args)
    (uuid4 : string) (w : World) : World :=
  if negb (enabled w) then w
  else enqueue
    (mkEvent "score-create"
       [("id", VStr uuid4);
        ("traceId", VStr trace_id);
        ("observationId", opt_str (sc_observation_id a));
        ("name", VStr (sc_name a));
        ("value", sc_value a);
        ("dataType", VStr (sc_data_type a));
        ("comment", opt_str (sc_comment a));
        ("source", VStr "API")]) w.

(** [Trace.score]: no [observation_id] is passed on. *)
Definition Trace_score (r : trace_ref) (a : score_args) (uuid4 : string)
    (w : World) : World :=
  AgentTrace_score (id_of_trace r w)
    (mkScoreArgs (sc_name a) (sc_value a) None (sc_data_type a) (sc_comment a))
    uuid4 w.

(** [AgentTrace.flush]. *)
Definition AgentTrace_flush (w : World) : World :=
  with_queue (BatchQueue.flush (_batch_queue w)) w.

(** *** Sequences of calls *)

(** One call of the tracing interface, together with what the
    environment answers during it. *)
Inductive call : Type :=
| CallTrace (a : trace_args) (uuid4 now : string)
| CallSpan (r : trace_ref) (a : span_args) (uuid4 now : string)
| CallGeneration (r : trace_ref) (a : generation_args) (uuid4 now : string)
| CallTraceUpdate (r : trace_ref) (a : update_args)
| CallTraceEnd (r : trace_ref) (output : pyval) (now : string)
| CallSpanEnd (r : nat) (output : pyval) (now : string)
| CallGenerationEnd (r : nat) (output usage : pyval) (model : option string)
                    (now : string)
| CallScore (trace_id : string) (a : score_args) (uuid4 : string)
| CallTraceScore (r : trace_ref) (a : score_args) (uuid4 : string).

(** What a call returns. *)
Inductive retval : Type :=
| RetNone
| RetTrace (r : trace_ref)
| RetObservation (o : obs_ref).

Definition do_call (c : call) (w : World) : retval * World :=
  match c with
  | CallTrace a uuid4 now =>
      let '(r, w') := AgentTrace_trace a uuid4 now w in (RetTrace r, w')
  | CallSpan r a uuid4 now =>
      let '(o, w') := Trace_span r a uuid4 now w in (RetObservation o, w')
  | CallGeneration r a uuid4 now =>
      let '(o, w') := Trace_generation r a uuid4 now w in (RetObservation o, w')
  | CallTraceUpdate r a => (RetTrace r, Trace_update r a w)
  | CallTraceEnd r output now => (RetNone, Trace_end r output now w)
  | CallSpanEnd r output now => (RetNone, Span_end r output now w)
  | CallGenerationEnd r output usage model now =>
      (RetNone, Generation_end r output usage model now w)
  | CallScore trace_id a uuid4 => (RetNone, AgentTrace_score trace_id a uuid4 w)
  | CallTraceScore r a uuid4 => (RetNone, Trace_score r a uuid4 w)
  end.

Fixpoint do_calls (cs : list call) (w : World) : list retval * World :=
  match cs with
  | [] => ([], w)
  | c :: cs' =>
      let '(v, w1) := do_call c w in
      let '(vs, w2) := do_calls cs' w1 in
      (v :: vs, w2)
  end.

End client.

(* --------------------------------------------------------------------- *)
(** ** decorators.py *)
(* --------------------------------------------------------------------- *)

Module decorators.
Import client.

(** The wrapped function applied to its arguments: user code that may
    use the tracing interface, and returns or raises. *)
Definition user_fn : Type := World -> World * outcome pyval.

(** [{"error": str(e)}]. *)
Definition error_output (e : exc) : pyval :=
  VDict [("error", VStr (exc_str e))].

(** The locals [trace] and [observation] once the observation is
    created; [observation] is [None] when the wrapper made the trace. *)
Record opened : Type := mkOpened {
  op_trace : trace_ref;
  op_observation : option obs_ref;
}.

(** "Get or create trace" and "Create observation". *)
Definition open_observation (name observation_type : string)
    (input_data : pyval) (uuid4 now : string) (w : World) : opened * World :=
  match context.get_current_trace (ctx w) with
  | None =>
      let '(r, w1) :=
        AgentTrace_trace
          (mkTraceArgs name None None None None None input_data false)
          uuid4 now w in
      (mkOpened r None, w1)
  | Some tr =>
      let parent_id :=
        match context.get_current_observation (ctx w) with
        | Some parent_observation =>
            Some (id_of_observation parent_observation w)
        | None => None
        end in
      if String.eqb observation_type "generation" then
        let '(o, w1) :=
          Trace_generation tr
            (mkGenerationArgs name None parent_id None None input_data None
                              "DEFAULT")
            uuid4 now w in
        (mkOpened tr (Some o), w1)
      else
        let '(o, w1) :=
          Trace_span tr
            (mkSpanArgs name None parent_id None input_data "DEFAULT")
            uuid4 now w in
        (mkOpened tr (Some o), w1)
  end.

(** [if observation: observation.end(output=...) else: trace.end(output=...)]. *)
Definition close_observation (h : opened) (output : pyval) (now : string)
    (w : World) : World :=
  match op_observation h with
  | Some o => Observation_end o output now w
  | None => Trace_end (op_trace h) output now w
  end.

(** [_trace_sync]. [captured_args] is what [_capture_args(fn, args,
    kwargs)] returns; [uuid4], [now_open] and [now_close] are the
    readings of the environment when the observation is created and
    when it is ended. The handler is [except Exception], which lets an
    exception that is only a [BaseException] pass. *)
Definition _trace_sync (fn : user_fn) (captured_args : pyval)
    (name observation_type : string) (capture_input capture_output : bool)
    (uuid4 now_open now_close : string) (w : World)
  : World * outcome pyval :=
  match context.get_client (ctx w) with
  | None => fn w
  | Some _ =>
      if negb (enabled w) then fn w
      else
        let input_data := if capture_input then captured_args else VNone in
        let '(h, w1) :=
          open_observation name observation_type input_data uuid4 now_open w in
        match fn w1 with
        | (w2, Return result) =>
            let output := if capture_output then result else VNone in
            (close_observation h output now_close w2, Return result)
        | (w2, Raise e) =>
            if exc_is_Exception e
            then (close_observation h (error_output e) now_close w2, Raise e)
            else (w2, Raise e)
        end
  end.

(** [_trace_async] has the body of [_trace_sync] with [await fn(...)]
    for [fn(...)]; the awaited coroutine is run as one step. *)
Definition _trace_async : user_fn -> pyval -> string -> string -> bool ->
    bool -> string -> string -> string -> World -> World * outcome pyval :=
  _trace_sync.

(** The world in which the wrapper calls the wrapped function. *)
Definition world_at_call (captured_args : pyval)
    (name observation_type : string) (capture_input : bool)
    (uuid4 now_open : string) (w : World) : World :=
  match context.get_client (ctx w) with
  | None => w
  | Some _ =>
      if negb (enabled w) then w
      else (open_observation name observation_type
              (if capture_input then captured_args else VNone)
              uuid4 now_open w).2
  end.

(** The values [_serialize_value] is applied to: any Python object.
    [OFloat] carries the rendering of the float, [OOther] stands for an
    object of any other class and carries what [str(value)] returns, or
    [None] when [str] raises. Keys of a dict are any objects. *)
Inductive pyobj : Type :=
| ONone
| OBool (b : bool)
| OInt (z : Z)
| OFloat (repr : string)
| OStr (s : string)
| OList (l : list pyobj)
| OTuple (l : list pyobj)
| ODict (d : list (pyobj * pyobj))
| OOther (str : option string).

(** [_serialize_value]. *)
Fixpoint _serialize_value (value : pyobj) : pyobj :=
  match value with
  | ONone | OBool _ | OInt _ | OFloat _ | OStr _ => value
  | OList l | OTuple l => OList (map _serialize_value l)
  | ODict d => ODict (map (fun '(k, v) => (k, _serialize_value v)) d)
  | OOther (Some s) => OStr s
  | OOther None => OStr "<unserializable>"
  end.

End decorators.

(* --------------------------------------------------------------------- *)
(** ** generation.py *)
(* --------------------------------------------------------------------- *)

Module generation.
Import client decorators.

(** A [GenerationContext] object. [_generation] is [None] in the no-op
    context handed out when there is no enabled client. *)
Record GenerationContext : Type := mkGenerationContext {
  _generation : option nat;
  _prev_observation : option obs_ref;
  _ended : bool;
}.

Definition GenerationContext_init (generation : option nat)
    (prev_observation : option obs_ref) : GenerationContext :=
  mkGenerationContext generation prev_observation false.

(** The properties [id] and [trace_id]. *)
Definition GenerationContext_id (c : GenerationContext) (w : World) : string :=
  match _generation c with
  | Some r => default "" (gen_id <$> generations w !! r)
  | None => ""
  end.

Definition GenerationContext_trace_id (c : GenerationContext) (w : World)
  : string :=
  match _generation c with
  | Some r => default "" (gen_trace_id <$> generations w !! r)
  | None => ""
  end.

(** [GenerationContext.update]: the attributes of the generation are
    assigned, nothing is sent. *)
Definition GenerationContext_update (output usage : pyval)
    (model : option string) (metadata : option pydict)
    (c : GenerationContext) (w : World) : World :=
  match _generation c with
  | None => w
  | Some r =>
      if _ended c then w
      else
        match generations w !! r with
        | None => w
        | Some g =>
            let g' := mkGeneration (gen_trace_id g) (gen_id g) (gen_name g)
                        (gen_parent_observation_id g)
                        (match model with Some m => Some m | None => gen_model g end)
                        (gen_model_parameters g) (gen_input g)
                        (match metadata with
                         | Some m => dict_update (gen_metadata g) m
                         | None => gen_metadata g end)
                        (gen_level g)
                        (if is_not_None output then output else gen_output g)
                        (gen_start_time g) (gen_end_time g)
                        (if is_not_None usage then usage else gen_usage g)
                        (gen_ended g) in
            with_generations (<[r := g']> (generations w)) w
        end
  end.

(** [GenerationContext.end]. *)
Definition GenerationContext_end (output usage : pyval)
    (model : option string) (now : string)
    (c : GenerationContext) (w : World) : GenerationContext * World :=
  match _generation c with
  | None => (c, w)
  | Some r =>
      if _ended c then (c, w)
      else
        let w1 := Generation_end r output usage model now w in
        (mkGenerationContext (_generation c) (_prev_observation c) true,
         with_ctx
           (context.set_current_observation (_prev_observation c) (ctx w1)) w1)
  end.

(** Keyword arguments of [generation], [ageneration] and
    [start_generation]. *)
Record generation_kwargs : Type := mkGenerationKwargs {
  gk_name : string;
  gk_model : option string;
  gk_model_parameters : option pydict;
  gk_input : pyval;
  gk_metadata : option pydict;
  gk_level : string;
}.

(** The reference of the [Generation] that [Trace.generation] returns. *)
Definition generation_of (o : obs_ref) : nat :=
  match o with GenerationRef n => n | SpanRef n => n end.

(** [start_generation]. [uuid4_trace] and [now_trace] are read when the
    trace is created, [uuid4] and [now] when the generation is. *)
Definition start_generation (a : generation_kwargs)
    (uuid4_trace now_trace uuid4 now : string) (w : World)
  : GenerationContext * World :=
  match context.get_client (ctx w) with
  | None => (GenerationContext_init None None, w)
  | Some _ =>
      if negb (enabled w) then (GenerationContext_init None None, w)
      else
        let '(tr, w1) :=
          match context.get_current_trace (ctx w) with
          | Some tr => (tr, w)
          | None =>
              AgentTrace_trace
                (mkTraceArgs (gk_name a) None None None None None (gk_input a)
                             false)
                uuid4_trace now_trace w
          end in
        let parent_observation := context.get_current_observation (ctx w1) in
        let parent_id :=
          match parent_observation with
          | Some p => Some (id_of_observation p w1)
          | None => None
          end in
        let '(o, w2) :=
          Trace_generation tr
            (mkGenerationArgs (gk_name a) None parent_id (gk_model a)
               (gk_model_parameters a) (gk_input a) (gk_metadata a)
               (gk_level a))
            uuid4 now w1 in
        (GenerationContext_init (Some (generation_of o)) parent_observation,
         with_ctx (context.set_current_observation (Some o) (ctx w2)) w2)
  end.

(** The block under [with generation(...) as gen]: user code that is
    given the context object, may call its methods and the tracing
    interface, and returns or raises. It gives back the state in which it
    leaves the context object. *)
Definition block (A : Type) : Type :=
  GenerationContext -> World -> GenerationContext * World * outcome A.

(** [gen.end(...)] followed by [set_current_observation(parent_observation)],
    on the locals [gen] and [parent_observation] of the manager. *)
Definition end_and_restore (gen : nat) (parent_observation : option obs_ref)
    (output : pyval) (now : string) (w : World) : World :=
  let w1 := Generation_end gen output VNone None now w in
  with_ctx (context.set_current_observation parent_observation (ctx w1)) w1.

(** The context manager [generation]. The statements before the [yield]
    are those of [start_generation]; [now_end] is read when the manager
    ends the generation. The handler is [except Exception]; the
    [finally] clause runs on every path and finds [ctx._ended] set when
    the handler has run. *)
Definition generation {A} (a : generation_kwargs)
    (uuid4_trace now_trace uuid4 now now_end : string) (body : block A)
    (w : World) : World * outcome A :=
  let '(c0, w1) := start_generation a uuid4_trace now_trace uuid4 now w in
  match _generation c0 with
  | None => let '(_, w2, r) := body c0 w1 in (w2, r)
  | Some gen =>
      let parent_observation := _prev_observation c0 in
      let '(c1, w2, r) := body c0 w1 in
      if _ended c1 then (w2, r)
      else
        match r with
        | Raise e =>
            if exc_is_Exception e
            then (end_and_restore gen parent_observation (error_output e)
                    now_end w2, r)
            else (end_and_restore gen parent_observation VNone now_end w2, r)
        | Return _ =>
            (end_and_restore gen parent_observation VNone now_end w2, r)
        end
  end.

(** [ageneration] has the body of [generation]; the awaited block is run
    as one step. *)
Definition ageneration {A} : generation_kwargs -> string -> string ->
    string -> string -> string -> block A -> World -> World * outcome A :=
  generation.

End generation.

(* ===================================================================== *)
(** * Part II: notions used in the statements *)
(* ===================================================================== *)

Section QueueNotions.
Import BatchQueue.
Context {E : Type}.
Implicit Types (q : t E).

(** Every record the queue still holds or has handed over, oldest
    first as far as the worker alone is concerned. *)
Definition pipeline q : list E := delivered q ++ _batch q ++ _queue q.

(** The transport receives [x] before [y]: earlier in one batch, or in
    an earlier batch. *)
Definition received_before (x y : E) (q : t E) : Prop :=
  exists l1 l2 l3, delivered q = l1 ++ x :: l2 ++ y :: l3.






End QueueNotions.

Section WorldNotions.
Import client decorators.
Implicit Types (w : World).

(** The records waiting in the queue of the client. *)
Definition queued w : list Event := BatchQueue._queue (_batch_queue w).

(** The queue of the client accepts one more record. *)
Definition has_room w : Prop := BatchQueue.full (_batch_queue w) = false.

(** Two worlds with the same context and the same objects; the flag and
    the queue of the client may differ. *)
Definition same_objects (w1 w2 : World) : Prop :=
  ctx w1 = ctx w2 /\ traces w1 = traces w2 /\ spans w1 = spans w2 /\
  generations w1 = generations w2.

(** The ended flag and the output of the object that the wrapper ends. *)
Definition ended_of (h : opened) (w : World) : option bool :=
  match op_observation h with
  | Some (SpanRef r) => span_ended <$> spans w !! r
  | Some (GenerationRef r) => gen_ended <$> generations w !! r
  | None => trace_ended <$> traces w !! op_trace h
  end.

Definition output_of (h : opened) (w : World) : option pyval :=
  match op_observation h with
  | Some (SpanRef r) => span_output <$> spans w !! r
  | Some (GenerationRef r) => gen_output <$> generations w !! r
  | None => trace_output <$> traces w !! op_trace h
  end.


End WorldNotions.

(** Worlds used to run the model: an enabled client with one trace
    ["T"], then with a span ["S"] and a generation ["G"] in that trace. *)
Definition demo_client : client.World :=
  client.AgentTrace_init true 20 5000 0 context.empty.

Definition demo_traced : client.World :=
  (client.AgentTrace_trace
     (client.mkTraceArgs "demo" (Some "T") None None None None VNone false)
     "uuid-1" "2024-01-01T00:00:00" demo_client).2.

Definition demo_world : client.World :=
  let w := (client.Trace_span 0%nat
              (client.mkSpanArgs "step" (Some "S") None None VNone "DEFAULT")
              "uuid-2" "2024-01-01T00:00:01" demo_traced).2 in
  (client.Trace_generation 0%nat
     (client.mkGenerationArgs "llm" (Some "G") None (Some "gpt-4") None VNone
                              None "DEFAULT")
     "uuid-3" "2024-01-01T00:00:02" w).2.

(** [demo_world] once its trace has ended. *)
Definition demo_ended : client.World :=
  client.Trace_end 0%nat VNone "2024-01-01T00:00:07" demo_world.

(** [demo_traced] after a second trace ["U"] was started: it is the
    current one. *)
Definition demo_two_traces : client.World :=
  (client.AgentTrace_trace
     (client.mkTraceArgs "other" (Some "U") None None None None VNone false)
     "uuid-4" "2024-01-01T00:00:03" demo_traced).2.

(** [demo_world] with its span ["S"] as the current observation. *)
Definition demo_in_span : client.World :=
  client.with_ctx
    (context.set_current_observation (Some (client.SpanRef 0))
       (client.ctx demo_world))
    demo_world.

(** The scenario of the specification on a disabled client: a trace, a
    generation in it, the end of the generation and the end of the trace. *)
Definition demo_calls : list client.call :=
  [client.CallTrace
     (client.mkTraceArgs "demo" (Some "T") None None None None VNone false)
     "uuid-1" "2024-01-01T00:00:00";
   client.CallGeneration 0%nat
     (client.mkGenerationArgs "llm" (Some "G") None (Some "gpt-4") None
        (VList [VDict [("role", VStr "user"); ("content", VStr "hi")]])
        None "DEFAULT")
     "uuid-2" "2024-01-01T00:00:01";
   client.CallGenerationEnd 0%nat
     (VDict [("content", VStr "hello")])
     (VDict [("inputTokens", VInt 2); ("outputTokens", VInt 1);
             ("totalTokens", VInt 3)])
     None "2024-01-01T00:00:02";
   client.CallTraceEnd 0%nat VNone "2024-01-01T00:00:03"].

Definition demo_disabled : client.World :=
  client.AgentTrace_init false 20 5000 0 context.empty.

(** A wrapped function that raises [ValueError("x")]. *)
Definition raising_fn : decorators.user_fn :=
  fun w => (w, Raise (Exc "ValueError" "x" true)).

(** A wrapped function that returns 42. *)
Definition returning_fn : decorators.user_fn :=
  fun w => (w, Return (VInt 42)).

(** [demo_traced] once its trace holds two metadata keys. *)
Definition demo_with_metadata : client.World :=
  client.Trace_update 0%nat
    (client.mkUpdateArgs None None None
       (Some [("env", VStr "dev"); ("run", VInt 1)]) None VNone VNone None)
    demo_traced.

(** Arguments of a generation ["chat"], and a block that gives an
    output to the context object and returns. *)
Definition demo_kwargs : generation.generation_kwargs :=
  generation.mkGenerationKwargs "chat" (Some "gpt-4") None VNone None "DEFAULT".


(** The generation ["G"] of [demo_world]. *)
Definition demo_generation : client.Generation :=
  client.mkGeneration "T" "G" "llm" None (Some "gpt-4") [] VNone []
    "DEFAULT" VNone "2024-01-01T00:00:02" None VNone false.

Section TransportNotions.
Import HttpTransport.
Import Stdlib.Strings.Ascii.

(** The replies after which the loops of [HttpTransport] sleep and go on
    to the next attempt: a 429 whose [Retry-After] can be slept, a 5xx, a
    timeout, a request error. *)
Definition goes_on (r : reply) : bool :=
  match r with
  | Response c h =>
      if c =? 429 then
        match h with
        | HeaderAbsent => true
        | HeaderInt n => negb (n <? 0)
        | HeaderMalformed => false
        end
      else c >=? 500
  | TimeoutException | RequestError => true
  | OtherException => false
  end.

(** The sleep that follows such a reply to attempt number [attempt]. *)
Definition delay (attempt : nat) (r : reply) : Z :=
  match r with
  | Response c HeaderAbsent => if c =? 429 then 5000 else backoff attempt
  | Response c (HeaderInt n) => if c =? 429 then n * 1000 else backoff attempt
  | _ => backoff attempt
  end.

(** The same for [AsyncHttpTransport]: every exception is retried, and a
    429 whatever its header. *)
Definition async_goes_on (r : reply) : bool :=
  match r with
  | Response c h => (c =? 429) || (c >=? 500)
  | _ => true
  end.

(** How many replies in a row, from attempt [attempt] on and among
    [remaining] attempts, make the loop go on. *)
Fixpoint retried_from (go : reply -> bool) (srv : server)
    (attempt remaining : nat) : nat :=
  match remaining with
  | O => O
  | S remaining' =>
      if go (srv attempt)
      then S (retried_from go srv (S attempt) remaining')
      else O
  end.

(** The sleeps after the first [j] replies. *)
Definition delays (srv : server) (j : nat) : list Z :=
  (fun k => delay k (srv k)) <$> seq 0 j.

Definition status_is (p : Z -> bool) (r : reply) : bool :=
  match r with Response c _ => p c | _ => false end.

(** A run of [k] slashes. *)
Fixpoint slashes (k : nat) : string :=
  match k with O => EmptyString | S k' => String "/"%char (slashes k') end.

(** [s.endswith("/")]. *)
Fixpoint ends_with_slash (s : string) : bool :=
  match s with
  | EmptyString => false
  | String c EmptyString => Ascii.eqb c "/"%char
  | String _ s' => ends_with_slash s'
  end.

End TransportNotions.

Section SerializeNotions.
Import decorators.


End SerializeNotions.

Section SerializeInduction.
Import decorators.

(** Induction on Python objects, with the elements of a list, of a tuple
    and the values of a dict as smaller objects. *)
Context (P : pyobj -> Prop).
Hypothesis P_None : P ONone.
Hypothesis P_Bool : forall b, P (OBool b).
Hypothesis P_Int : forall z, P (OInt z).
Hypothesis P_Float : forall f, P (OFloat f).
Hypothesis P_Str : forall s, P (OStr s).
Hypothesis P_List : forall l, Forall P l -> P (OList l).
Hypothesis P_Tuple : forall l, Forall P l -> P (OTuple l).
Hypothesis P_Dict : forall d, Forall (fun kv => P kv.2) d -> P (ODict d).
Hypothesis P_Other : forall o, P (OOther o).


End SerializeInduction.

Section ScheduleNotions.
Import BatchQueue.
Context {E : Type}.
Implicit Types (q : t E).

(** The records that the [add] calls of a schedule get accepted, in the
    order of the calls. *)
Fixpoint accepted (ops : list (op E)) q : list E :=
  match ops with
  | [] => []
  | o :: ops' =>
      match o with
      | Add e => if full q then [] else [e]
      | _ => []
      end ++ accepted ops' (step o q)
  end.

(** Steps of the producers and of the worker only. *)
Definition no_flush (o : op E) : Prop :=
  match o with
  | Add _ | WorkerIter _ => True
  | Flush | Stop => False
  end.

(** What several threads can do around one [AsyncBatchQueue]. *)
Inductive async_op : Type :=
| AsyncAdd (event : E) (now : Z)
| AsyncCheckFlush (now : Z)
| AsyncFlush (now : Z)
| AsyncStop (now : Z).

Definition async_step (o : async_op) (a : AsyncBatchQueue.t E)
  : AsyncBatchQueue.t E :=
  match o with
  | AsyncAdd e now => (AsyncBatchQueue.add e now a).2
  | AsyncCheckFlush now => AsyncBatchQueue.check_flush now a
  | AsyncFlush now => AsyncBatchQueue.flush now a
  | AsyncStop now => AsyncBatchQueue.stop now a
  end.

Definition async_run (ops : list async_op) (a : AsyncBatchQueue.t E)
  : AsyncBatchQueue.t E :=
  fold_left (fun a o => async_step o a) ops a.

Fixpoint async_accepted (ops : list async_op) (a : AsyncBatchQueue.t E)
  : list E :=
  match ops with
  | [] => []
  | o :: ops' =>
      match o with
      | AsyncAdd e now => if (AsyncBatchQueue.add e now a).1 then [e] else []
      | _ => []
      end ++ async_accepted ops' (async_step o a)
  end.

(** Sent batches and pending records of an [AsyncBatchQueue], oldest
    first. *)
Definition async_pipeline (a : AsyncBatchQueue.t E) : list E :=
  concat (AsyncBatchQueue.sent a) ++ AsyncBatchQueue._batch a.

End ScheduleNotions.
Arguments async_op E : clear implicits.

Section ClientNotions.
Import client.
Implicit Types (w : World).

(** [d.get(k)]. *)
Fixpoint dict_get (k : string) (d : pydict) : option pyval :=
  match d with
  | [] => None
  | (k', v) :: d' => if String.eqb k k' then Some v else dict_get k d'
  end.

(** [AgentTrace.shutdown]: [flush], then [stop] of the queue. *)
Definition AgentTrace_shutdown w : World :=
  let w1 := AgentTrace_flush w in
  with_queue (BatchQueue.stop (_batch_queue w1)) w1.

Definition has_end_time (o : option string) : bool :=
  match o with Some _ => true | None => false end.

(** Every object is marked as ended exactly when it has an end time. *)
Definition consistent w : Prop :=
  map_Forall (fun _ t => trace_ended t = has_end_time (trace_end_time t))
             (traces w) /\
  map_Forall (fun _ sp => span_ended sp = has_end_time (span_end_time sp))
             (spans w) /\
  map_Forall (fun _ g => gen_ended g = has_end_time (gen_end_time g))
             (generations w).

(** What identifies a record of the queue: its type and the id in its
    body. The other fields of a body may be dictionaries that the record
    shares with the object it was made from. *)
Definition record_key (ev : Event) : string * option pyval :=
  (ev_type ev, dict_get "id" (ev_body ev)).

(** The effect of a call on the client's queue: at most one record is
    appended, and nothing else changes. *)
Definition appends_at_most_one w w' : Prop :=
  exists evs, queued w' = queued w ++ evs /\ (length evs <= 1)%nat /\
              BatchQueue.sent (_batch_queue w') = BatchQueue.sent (_batch_queue w) /\
              BatchQueue._batch (_batch_queue w') = BatchQueue._batch (_batch_queue w) /\
              enabled w' = enabled w.

(** A span, a generation, without the metadata: the one dictionary of
    an object that is changed in place, and that the caller may have
    given to several objects. *)
Definition span_but_metadata (sp : Span) : Span :=
  mkSpan (span_trace_id sp) (span_id sp) (span_name sp)
    (span_parent_observation_id sp) [] (span_input sp) (span_level sp)
    (span_output sp) (span_start_time sp) (span_end_time sp) (span_ended sp).

Definition generation_but_metadata (g : Generation) : Generation :=
  mkGeneration (gen_trace_id g) (gen_id g) (gen_name g)
    (gen_parent_observation_id g) (gen_model g) (gen_model_parameters g)
    (gen_input g) [] (gen_level g) (gen_output g) (gen_start_time g)
    (gen_end_time g) (gen_usage g) (gen_ended g).

(** What no call changes in a trace that has ended. *)
Definition same_end (t t' : Trace) : Prop :=
  trace_ended t' = true /\ trace_end_time t' = trace_end_time t /\
  trace_id t' = trace_id t /\ trace_start_time t' = trace_start_time t.

(** The object behind an observation reference is stored. *)
Definition observation_stored (o : obs_ref) w : Prop :=
  match o with
  | SpanRef n => is_Some (spans w !! n)
  | GenerationRef n => is_Some (generations w !! n)
  end.

End ClientNotions.

(* ===================================================================== *)
(** * Part III: properties *)
(* ===================================================================== *)

(** ** Transport: retries *)

Section TransportRetry.
Import HttpTransport.

Lemma attempts_accepted srv attempt remaining sl c h :
  srv attempt = Response c h -> is_accepted c = true ->
  attempts srv attempt (S remaining) sl = mkResult true (S attempt) sl.
Proof. intros Hs Hc. simpl. rewrite Hs, Hc. reflexivity. Qed.

Lemma attempts_server_error srv attempt remaining sl c h :
  srv attempt = Response c h -> 500 <= c ->
  attempts srv attempt (S remaining) sl
  = attempts srv (S attempt) remaining (sl ++ [backoff attempt]).
Proof.
  intros Hs Hc. simpl. rewrite Hs.
  assert (is_accepted c = false) as ->.
  { unfold is_accepted.
    destruct (Z.eqb_spec c 200), (Z.eqb_spec c 201), (Z.eqb_spec c 207);
      simpl; try lia; reflexivity. }
  destruct (Z.eqb_spec c 429); [lia|].
  destruct (Z.geb_spec c 500); [reflexivity|lia].
Qed.

Lemma attempts_client_error srv attempt remaining sl c h :
  srv attempt = Response c h -> 400 <= c < 500 -> c <> 429 ->
  attempts srv attempt (S remaining) sl = mkResult false (S attempt) sl.
Proof.
  intros Hs Hc Hn. simpl. rewrite Hs.
  assert (is_accepted c = false) as ->.
  { unfold is_accepted.
    destruct (Z.eqb_spec c 200), (Z.eqb_spec c 201), (Z.eqb_spec c 207);
      simpl; try lia; reflexivity. }
  destruct (Z.eqb_spec c 429); [lia|].
  destruct (Z.geb_spec c 500); [lia|reflexivity].
Qed.

(** C4. With [max_retries = 3] and a batch that holds at least one
    event: against a server answering 500, 500, 200, [send_batch]
    returns true after exactly 3 requests; against a server that answers
    every request with one 4xx status other than 429, it returns false
    after exactly 1 request. *)
Theorem send_batch_retry_policy {E} (e : E) (es : list E) :
  (forall srv h0 h1 h2,
      srv 0%nat = Response 500 h0 -> srv 1%nat = Response 500 h1 ->
      srv 2%nat = Response 200 h2 ->
      ok (send_batch 3 srv (e :: es)) = true /\
      requests (send_batch 3 srv (e :: es)) = 3%nat) /\
  (forall srv c,
      400 <= c < 500 -> c <> 429 ->
      (forall k, exists h, srv k = Response c h) ->
      ok (send_batch 3 srv (e :: es)) = false /\
      requests (send_batch 3 srv (e :: es)) = 1%nat).
Proof.
  split.
  - intros srv h0 h1 h2 H0 H1 H2. unfold send_batch.
    change (Z.to_nat 3) with 3%nat.
    rewrite (attempts_server_error _ _ _ _ _ _ H0) by lia.
    rewrite (attempts_server_error _ _ _ _ _ _ H1) by lia.
    rewrite (attempts_accepted _ _ _ _ _ _ H2) by reflexivity.
    split; reflexivity.
  - intros srv c Hc Hn Hall. destruct (Hall 0%nat) as [h Hs].
    unfold send_batch. change (Z.to_nat 3) with 3%nat.
    rewrite (attempts_client_error _ _ _ _ _ _ Hs Hc Hn).
    split; reflexivity.
Qed.

(** An empty batch makes no request at all. *)
Lemma send_batch_empty {E} max_retries srv :
  send_batch (E:=E) max_retries srv [] = mkResult true 0 [].
Proof. reflexivity. Qed.

End TransportRetry.

(** The theorem at a one-event batch, a server answering 500, 500 and
    then 200, and a server answering 404 throughout. *)
Lemma send_batch_retry_policy_witness :
  let srv := fun k : nat =>
    match k with
    | 0%nat | 1%nat => HttpTransport.Response 500 HttpTransport.HeaderAbsent
    | _ => HttpTransport.Response 200 HttpTransport.HeaderAbsent
    end in
  let srv404 := fun _ : nat =>
    HttpTransport.Response 404 HttpTransport.HeaderAbsent in
  (HttpTransport.ok (HttpTransport.send_batch 3 srv [mkEvent "trace-create" []])
   = true /\
   HttpTransport.requests
     (HttpTransport.send_batch 3 srv [mkEvent "trace-create" []]) = 3%nat) /\
  (HttpTransport.ok
     (HttpTransport.send_batch 3 srv404 [mkEvent "trace-create" []]) = false /\
   HttpTransport.requests
     (HttpTransport.send_batch 3 srv404 [mkEvent "trace-create" []]) = 1%nat).
Proof.
  intros srv srv404.
  destruct (send_batch_retry_policy (mkEvent "trace-create" []) [])
    as [Hretry Hfatal].
  split.
  - apply (Hretry srv HttpTransport.HeaderAbsent HttpTransport.HeaderAbsent
             HttpTransport.HeaderAbsent); reflexivity.
  - apply (Hfatal srv404 404); [lia | lia |].
    intros k. exists HttpTransport.HeaderAbsent. reflexivity.
Defined.

(** ** Batch queue: order of delivery *)

Section BatchOrder.
Import BatchQueue.
Context {E : Type}.
Implicit Types (q : t E) (e : E).

Lemma delivered_send_batch events q :
  delivered (_send_batch events q) = delivered q ++ events.
Proof.
  destruct events as [|x l]; unfold delivered; simpl.
  - by rewrite app_nil_r.
  - by rewrite concat_app; simpl; rewrite app_nil_r.
Qed.

Lemma pipeline_add_accepted e q :
  full q = false -> pipeline (add e q).2 = pipeline q ++ [e].
Proof.
  intros Hf. unfold add. rewrite Hf. unfold pipeline, delivered. simpl.
  by rewrite <- !app_assoc.
Qed.

Lemma pipeline_add_dropped e q :
  full q = true -> (add e q).2 = q.
Proof. intros Hf. unfold add. by rewrite Hf. Qed.

Lemma pipeline_drain_one q : pipeline (drain_one q) = pipeline q.
Proof.
  unfold drain_one, pipeline, delivered.
  destruct (_queue q) as [|x rest] eqn:Hq; simpl.
  - by rewrite Hq.
  - by rewrite <- app_assoc.
Qed.

Lemma pipeline_check_and_send now q :
  pipeline (check_and_send now q) = pipeline q.
Proof.
  unfold check_and_send. destruct (should_flush now q); [|done].
  unfold pipeline. rewrite delivered_send_batch.
  destruct (_batch q) as [|x l] eqn:Hb; simpl.
  - by rewrite app_nil_r.
  - unfold delivered. simpl. by rewrite <- app_assoc.
Qed.

(** The worker alone keeps the order of arrival: one iteration of its
    loop moves records along the pipeline without reordering them. *)
Lemma worker_keeps_arrival_order now q :
  pipeline (flush_loop_iter now q) = pipeline q.
Proof.
  unfold flush_loop_iter. destruct (_running q); [|done].
  by rewrite pipeline_check_and_send, pipeline_drain_one.
Qed.

(** [flush] hands over the drained queue first and the older,
    accumulated batch after it. *)
Lemma flush_delivers_queue_then_batch q :
  delivered (flush q) = delivered q ++ _queue q ++ _batch q.
Proof. unfold flush. by rewrite delivered_send_batch. Qed.

(** C1, evaluated on the code. A producer adds [R1], the worker moves it
    into its batch (one record, below [flush_at], before the interval
    has passed), the producer adds [R2] and [flush()] runs: the
    transport receives the single batch [[R2; R1]], that is [R2], added
    later, before [R1]. *)
Theorem flush_sends_later_record_first (R1 R2 : E) :
  let q := run [Add R1; WorkerIter 100; Add R2; Flush] (init 20 5000 10000 0) in
  sent q = [[R2; R1]] /\ received_before R2 R1 q.
Proof.
  intros q. split.
  - reflexivity.
  - exists [], [], []. subst q. unfold delivered. simpl. reflexivity.
Qed.

(** With a queue that is not full and a worker that has not picked
    anything up, [flush()] does keep the order of the two records. *)
Example flush_of_the_queue_alone (R1 R2 : E) :
  sent (run [Add R1; Add R2; Flush] (init 20 5000 10000 0)) = [[R1; R2]].
Proof. reflexivity. Qed.

End BatchOrder.

(** ** Batch queue: when the worker sends *)

Section FlushThreshold.
Import BatchQueue.
Context {E : Type}.
Implicit Types (q : t E) (e : E).










End FlushThreshold.



(** With [flush_at = 20]: twenty records added, then twenty iterations of
    the worker within the first second, give one batch of the twenty
    records in the order of arrival; nineteen records give none. *)
Example twenty_records_are_sent :
  BatchQueue.sent
    (BatchQueue.run
       ((BatchQueue.Add <$> seq 1 20) ++ (BatchQueue.WorkerIter <$> repeat 1000 20))
       (BatchQueue.init 20 5000 10000 0))
  = [seq 1 20].
Proof. vm_compute. reflexivity. Qed.

Example nineteen_records_wait :
  (BatchQueue.sent
     (BatchQueue.run
        ((BatchQueue.Add <$> seq 1 19)
         ++ (BatchQueue.WorkerIter <$> repeat 1000 20))
        (BatchQueue.init 20 5000 10000 0))
   = []) /\
  (BatchQueue.sent
     (BatchQueue.run
        ((BatchQueue.Add <$> seq 1 19)
         ++ (BatchQueue.WorkerIter <$> repeat 1000 20)
         ++ [BatchQueue.WorkerIter 5000])
        (BatchQueue.init 20 5000 10000 0))
   = [seq 1 19]).
Proof. vm_compute. split; reflexivity. Qed.

(** ** Observation model: ending *)

Section EndOnce.
Import client.
Implicit Types (w : World) (e : Event).

Lemma queued_enqueue e w :
  has_room w -> queued (enqueue e w) = queued w ++ [e].
Proof.
  unfold has_room, queued, enqueue, BatchQueue.add. intros ->. reflexivity.
Qed.

Lemma enqueue_objects e w :
  enabled (enqueue e w) = enabled w /\ ctx (enqueue e w) = ctx w /\
  traces (enqueue e w) = traces w /\ spans (enqueue e w) = spans w /\
  generations (enqueue e w) = generations w.
Proof. repeat split. Qed.

Lemma Trace_end_ended r output now w t :
  traces w !! r = Some t -> trace_ended t = true ->
  Trace_end r output now w = w.
Proof. intros Hl He. unfold Trace_end. by rewrite Hl, He. Qed.

Lemma Span_end_ended r output now w sp :
  spans w !! r = Some sp -> span_ended sp = true ->
  Span_end r output now w = w.
Proof. intros Hl He. unfold Span_end. by rewrite Hl, He. Qed.

Lemma Generation_end_ended r output usage model now w g :
  generations w !! r = Some g -> gen_ended g = true ->
  Generation_end r output usage model now w = w.
Proof. intros Hl He. unfold Generation_end. by rewrite Hl, He. Qed.

(** After [end()] the object, if any, is marked as ended. *)
Lemma Trace_end_marks r output now w :
  traces w !! r = None \/
  exists t, traces (Trace_end r output now w) !! r = Some t /\ trace_ended t = true.
Proof.
  unfold Trace_end. destruct (traces w !! r) as [t|] eqn:Hl; [right|by left].
  destruct (trace_ended t) eqn:He; [by exists t|].
  unfold Trace_update. simpl. rewrite lookup_insert_eq. simpl.
  destruct (enabled w); simpl; rewrite lookup_insert_eq; eauto.
Qed.

Lemma Span_end_marks r output now w :
  spans w !! r = None \/
  exists sp, spans (Span_end r output now w) !! r = Some sp /\ span_ended sp = true.
Proof.
  unfold Span_end. destruct (spans w !! r) as [sp|] eqn:Hl; [right|by left].
  destruct (span_ended sp) eqn:He; [by exists sp|].
  simpl. destruct (enabled w); simpl; rewrite lookup_insert_eq; eauto.
Qed.

Lemma Generation_end_marks r output usage model now w :
  generations w !! r = None \/
  exists g, generations (Generation_end r output usage model now w) !! r = Some g
            /\ gen_ended g = true.
Proof.
  unfold Generation_end.
  destruct (generations w !! r) as [g|] eqn:Hl; [right|by left].
  destruct (gen_ended g) eqn:He; [by exists g|].
  simpl. destruct (enabled w); simpl; rewrite lookup_insert_eq; eauto.
Qed.

(** A second [end()] changes nothing at all, whatever its arguments. *)
Lemma Trace_end_twice r o1 n1 o2 n2 w :
  Trace_end r o2 n2 (Trace_end r o1 n1 w) = Trace_end r o1 n1 w.
Proof.
  destruct (Trace_end_marks r o1 n1 w) as [Hn|(t & Hl & He)].
  - unfold Trace_end at 2. rewrite Hn. unfold Trace_end. by rewrite Hn.
  - by apply (Trace_end_ended _ _ _ _ t).
Qed.

Lemma Span_end_twice r o1 n1 o2 n2 w :
  Span_end r o2 n2 (Span_end r o1 n1 w) = Span_end r o1 n1 w.
Proof.
  destruct (Span_end_marks r o1 n1 w) as [Hn|(sp & Hl & He)].
  - unfold Span_end at 2. rewrite Hn. unfold Span_end. by rewrite Hn.
  - by apply (Span_end_ended _ _ _ _ sp).
Qed.

Lemma Generation_end_twice r o1 u1 m1 n1 o2 u2 m2 n2 w :
  Generation_end r o2 u2 m2 n2 (Generation_end r o1 u1 m1 n1 w)
  = Generation_end r o1 u1 m1 n1 w.
Proof.
  destruct (Generation_end_marks r o1 u1 m1 n1 w) as [Hn|(g & Hl & He)].
  - unfold Generation_end at 2. rewrite Hn. unfold Generation_end. by rewrite Hn.
  - by apply (Generation_end_ended _ _ _ _ _ _ g).
Qed.

(** The first [end()] of a live object, on an enabled client whose queue
    has room, enqueues one update record. *)
Lemma Trace_end_enqueues r output now w t :
  enabled w = true -> has_room w ->
  traces w !! r = Some t -> trace_ended t = false ->
  exists ev, ev_type ev = "trace-update" /\
             queued (Trace_end r output now w) = queued w ++ [ev].
Proof.
  intros Hen Hroom Hl He. unfold Trace_end. rewrite Hl, He.
  unfold Trace_update. simpl. rewrite lookup_insert_eq. simpl. rewrite Hen.
  eexists. split; [|unfold queued; simpl; apply (queued_enqueue _ _ Hroom)].
  reflexivity.
Qed.

Lemma Span_end_enqueues r output now w sp :
  enabled w = true -> has_room w ->
  spans w !! r = Some sp -> span_ended sp = false ->
  exists ev, ev_type ev = "span-update" /\
             queued (Span_end r output now w) = queued w ++ [ev].
Proof.
  intros Hen Hroom Hl He. unfold Span_end. rewrite Hl, He. simpl. rewrite Hen.
  eexists. split; [|apply (queued_enqueue _ _ Hroom)]. reflexivity.
Qed.

Lemma Generation_end_enqueues r output usage model now w g :
  enabled w = true -> has_room w ->
  generations w !! r = Some g -> gen_ended g = false ->
  exists ev, ev_type ev = "generation-update" /\
             queued (Generation_end r output usage model now w) = queued w ++ [ev].
Proof.
  intros Hen Hroom Hl He. unfold Generation_end. rewrite Hl, He. simpl.
  rewrite Hen.
  eexists. split; [|apply (queued_enqueue _ _ Hroom)]. reflexivity.
Qed.

End EndOnce.

Section EndTwice.
Import client.

(** C2. For a trace, a span or a generation, a second call of [end()]
    leaves the whole world (every field of the object, among them the
    end time, the output, the usage, the model and the ended flag, and
    the queue and the context) as the first call left it, whatever its
    arguments; [end] is a total function and has no error outcome. On an
    enabled client whose queue has room, for an object that has not
    ended, the two calls together put exactly one record at the end of
    the queue, the update record of its kind. *)
Theorem end_twice_enqueues_one_update (w : World) (r : nat) :
  (forall o1 n1 o2 n2,
      Trace_end r o2 n2 (Trace_end r o1 n1 w) = Trace_end r o1 n1 w) /\
  (forall o1 n1 o2 n2,
      Span_end r o2 n2 (Span_end r o1 n1 w) = Span_end r o1 n1 w) /\
  (forall o1 u1 m1 n1 o2 u2 m2 n2,
      Generation_end r o2 u2 m2 n2 (Generation_end r o1 u1 m1 n1 w)
      = Generation_end r o1 u1 m1 n1 w) /\
  (enabled w = true -> has_room w ->
   (forall t o1 n1 o2 n2,
       traces w !! r = Some t -> trace_ended t = false ->
       exists ev, ev_type ev = "trace-update" /\
         queued (Trace_end r o2 n2 (Trace_end r o1 n1 w)) = queued w ++ [ev]) /\
   (forall sp o1 n1 o2 n2,
       spans w !! r = Some sp -> span_ended sp = false ->
       exists ev, ev_type ev = "span-update" /\
         queued (Span_end r o2 n2 (Span_end r o1 n1 w)) = queued w ++ [ev]) /\
   (forall g o1 u1 m1 n1 o2 u2 m2 n2,
       generations w !! r = Some g -> gen_ended g = false ->
       exists ev, ev_type ev = "generation-update" /\
         queued (Generation_end r o2 u2 m2 n2 (Generation_end r o1 u1 m1 n1 w))
         = queued w ++ [ev])).
Proof.
  split; [intros; apply Trace_end_twice|].
  split; [intros; apply Span_end_twice|].
  split; [intros; apply Generation_end_twice|].
  intros Hen Hroom. split; [|split].
  - intros t o1 n1 o2 n2 Hl He. rewrite Trace_end_twice.
    by apply (Trace_end_enqueues _ _ _ _ t).
  - intros sp o1 n1 o2 n2 Hl He. rewrite Span_end_twice.
    by apply (Span_end_enqueues _ _ _ _ sp).
  - intros g o1 u1 m1 n1 o2 u2 m2 n2 Hl He. rewrite Generation_end_twice.
    by apply (Generation_end_enqueues _ _ _ _ _ _ g).
Qed.

End EndTwice.

(** The theorem at [demo_world], on its span: two calls of [end()], one
    [span-update] record. *)
Lemma end_twice_enqueues_one_update_witness :
  client.enabled demo_world = true /\ has_room demo_world /\
  client.span_ended <$> client.spans demo_world !! 0%nat = Some false /\
  exists ev, ev_type ev = "span-update" /\
    queued (client.Span_end 0%nat (VStr "again") "2024-01-01T00:00:09"
              (client.Span_end 0%nat (VStr "done") "2024-01-01T00:00:05"
                 demo_world))
    = queued demo_world ++ [ev].
Proof.
  split; [reflexivity|]. split; [reflexivity|]. split; [reflexivity|].
  refine (proj1 (proj2 (proj2 (proj2 (proj2
            (end_twice_enqueues_one_update demo_world 0%nat)))
            eq_refl eq_refl))
            _ (VStr "done") "2024-01-01T00:00:05" (VStr "again")
            "2024-01-01T00:00:09" eq_refl eq_refl).
Defined.

Section AfterEnd.
Import client.

Lemma Trace_update_lookup r a w t :
  traces w !! r = Some t ->
  traces (Trace_update r a w) !! r = Some (apply_update a t).
Proof.
  intros Hl. unfold Trace_update. rewrite Hl. simpl.
  destruct (enabled w); simpl; by rewrite lookup_insert_eq.
Qed.

Lemma Trace_update_queued r a w t :
  traces w !! r = Some t ->
  (enabled w = true -> has_room w ->
   queued (Trace_update r a w)
   = queued w ++ [trace_update_event (apply_update a t)]) /\
  (enabled w = false -> queued (Trace_update r a w) = queued w).
Proof.
  intros Hl. unfold Trace_update. rewrite Hl. simpl. split.
  - intros -> Hroom. apply (queued_enqueue _ _ Hroom).
  - intros ->. reflexivity.
Qed.

(** C3, as the code has it. On a trace, a span or a generation that has
    ended, [end()] changes nothing: no record, no change of state. The
    ended flag is never reset. [Trace.update] does not look at the flag:
    on an ended trace it still applies its arguments and, on an enabled
    client whose queue has room, enqueues a [trace-update] record with the
    resulting state. *)
Theorem end_after_ended_is_ignored (w : World) (r : nat) :
  (forall t output now,
      traces w !! r = Some t -> trace_ended t = true ->
      Trace_end r output now w = w) /\
  (forall sp output now,
      spans w !! r = Some sp -> span_ended sp = true ->
      Span_end r output now w = w) /\
  (forall g output usage model now,
      generations w !! r = Some g -> gen_ended g = true ->
      Generation_end r output usage model now w = w) /\
  (forall t a,
      traces w !! r = Some t -> trace_ended t = true ->
      traces (Trace_update r a w) !! r = Some (apply_update a t) /\
      trace_ended (apply_update a t) = true /\
      (enabled w = true -> has_room w ->
       queued (Trace_update r a w)
       = queued w ++ [trace_update_event (apply_update a t)])).
Proof.
  repeat split.
  - intros. by eapply Trace_end_ended.
  - intros. by eapply Span_end_ended.
  - intros. by eapply Generation_end_ended.
  - by apply Trace_update_lookup.
  - done.
  - by apply Trace_update_queued.
Qed.

End AfterEnd.

(** The theorem at the ended trace of [demo_ended]. *)
Lemma end_after_ended_is_ignored_witness :
  client.trace_ended <$> client.traces demo_ended !! 0%nat = Some true /\
  client.Trace_end 0%nat (VStr "late") "2024-01-01T00:00:09" demo_ended
  = demo_ended.
Proof.
  split; [reflexivity|].
  refine (proj1 (end_after_ended_is_ignored demo_ended 0%nat) _ _ _ _ _);
    reflexivity.
Defined.

(** C3 as stated fails on [Trace.update]: on the ended trace of
    [demo_ended], [update(name="late")] renames the trace and enqueues a
    record. *)
Lemma update_after_end_takes_effect :
  let w' := client.Trace_update 0%nat
              (client.mkUpdateArgs (Some "late") None None None None VNone
                                   VNone None) demo_ended in
  client.trace_ended <$> client.traces demo_ended !! 0%nat = Some true /\
  client.trace_name <$> client.traces demo_ended !! 0%nat = Some "demo" /\
  client.trace_name <$> client.traces w' !! 0%nat = Some "late" /\
  length (queued w') = S (length (queued demo_ended)) /\
  ev_type <$> last (queued w') = Some "trace-update" /\
  w' <> demo_ended.
Proof.
  repeat split. intros H.
  apply (f_equal (fun w => length (queued w))) in H. vm_compute in H. lia.
Qed.

(** ** Trace.end and the current-trace slot *)

Section CurrentTrace.
Import client.

Lemma Trace_update_ctx r a w : ctx (Trace_update r a w) = ctx w.
Proof.
  unfold Trace_update. destruct (traces w !! r); [|done].
  simpl. by destruct (enabled w).
Qed.

(** C10, as the code has it. [end()] on a trace that has not ended sets
    the current-trace slot to [None] whatever it held, the ended trace or
    another one, and leaves the client and observation slots alone;
    [end()] on a trace that has ended leaves the context as it is. *)
Theorem Trace_end_resets_current_trace (w : World) (r : trace_ref) (t : Trace)
    (output : pyval) (now : string) :
  traces w !! r = Some t ->
  (trace_ended t = false ->
   context.get_current_trace (ctx (Trace_end r output now w)) = None /\
   context.get_client (ctx (Trace_end r output now w))
   = context.get_client (ctx w) /\
   context.get_current_observation (ctx (Trace_end r output now w))
   = context.get_current_observation (ctx w)) /\
  (trace_ended t = true -> ctx (Trace_end r output now w) = ctx w).
Proof.
  intros Hl. split; intros He.
  - unfold Trace_end. rewrite Hl, He. simpl.
    rewrite Trace_update_ctx. simpl. done.
  - by rewrite (Trace_end_ended _ _ _ _ t).
Qed.

End CurrentTrace.

(** The theorem at the live trace of [demo_world]. *)
Lemma Trace_end_resets_current_trace_witness :
  client.trace_ended <$> client.traces demo_world !! 0%nat = Some false /\
  context.get_current_trace (client.ctx demo_world) = Some 0%nat /\
  context.get_current_trace
    (client.ctx (client.Trace_end 0%nat VNone "2024-01-01T00:00:07" demo_world))
  = None.
Proof.
  split; [reflexivity|]. split; [reflexivity|].
  refine (proj1 (proj1 (Trace_end_resets_current_trace demo_world 0%nat _ VNone
                          "2024-01-01T00:00:07" eq_refl) eq_refl)).
Defined.

(** C10 as stated fails when another trace is current: with trace ["U"]
    (reference 1) in the slot, ending trace ["T"] (reference 0) empties
    the slot although ["U"] has not ended. *)
Lemma Trace_end_clears_another_trace :
  let w' := client.Trace_end 0%nat VNone "2024-01-01T00:00:07" demo_two_traces in
  client.trace_id <$> client.traces demo_two_traces !! 0%nat = Some "T" /\
  client.trace_id <$> client.traces demo_two_traces !! 1%nat = Some "U" /\
  context.get_current_trace (client.ctx demo_two_traces) = Some 1%nat /\
  client.trace_ended <$> client.traces w' !! 1%nat = Some false /\
  context.get_current_trace (client.ctx w') = None /\
  context.get_current_trace (client.ctx w')
  <> context.get_current_trace (client.ctx demo_two_traces).
Proof. repeat split. discriminate. Qed.

(** ** Parent of a child observation *)

Section ParentLinkage.
Import client decorators.

Lemma Trace_span_parent r a uuid4 now w :
  parent_of (Trace_span r a uuid4 now w).1 (Trace_span r a uuid4 now w).2
  = Some (sa_parent_observation_id a).
Proof.
  unfold Trace_span, Span_init, Span__send_create. simpl.
  destruct (enabled w); simpl; by rewrite lookup_insert_eq.
Qed.

Lemma Trace_generation_parent r a uuid4 now w :
  parent_of (Trace_generation r a uuid4 now w).1
            (Trace_generation r a uuid4 now w).2
  = Some (ga_parent_observation_id a).
Proof.
  unfold Trace_generation, Generation_init, Generation__send_create. simpl.
  destruct (enabled w); simpl; by rewrite lookup_insert_eq.
Qed.

(** C8, as the code has it. [Trace.span] and [Trace.generation] record as
    parent exactly the [parent_observation_id] they are given, [None]
    when none is given, and do not read the context. The lookup is made
    by the [observe] wrapper: with a current trace, the observation it
    creates has as parent the id of the current observation, and no
    parent when there is none. *)
Theorem child_parent_is_the_argument (w : World) (r : trace_ref)
    (uuid4 now : string) :
  (forall a,
      parent_of (Trace_span r a uuid4 now w).1 (Trace_span r a uuid4 now w).2
      = Some (sa_parent_observation_id a)) /\
  (forall a,
      parent_of (Trace_generation r a uuid4 now w).1
                (Trace_generation r a uuid4 now w).2
      = Some (ga_parent_observation_id a)) /\
  (forall name observation_type input_data,
      context.get_current_trace (ctx w) = Some r ->
      exists o,
        op_observation
          (open_observation name observation_type input_data uuid4 now w).1
        = Some o /\
        parent_of o (open_observation name observation_type input_data
                       uuid4 now w).2
        = Some ((fun p => id_of_observation p w)
                  <$> context.get_current_observation (ctx w))).
Proof.
  split; [|split].
  - intros a. apply Trace_span_parent.
  - intros a. apply Trace_generation_parent.
  - intros name ty input_data Hcur. unfold open_observation. rewrite Hcur.
    destruct (String.eqb ty "generation").
    + match goal with
      | |- context [Trace_generation ?r' ?a ?u ?n ?w'] =>
          pose proof (Trace_generation_parent r' a u n w') as Hp;
          destruct (Trace_generation r' a u n w') as [o w1]
      end.
      exists o. split; [reflexivity|]. simpl in *. rewrite Hp.
      by destruct (context.get_current_observation (ctx w)).
    + match goal with
      | |- context [Trace_span ?r' ?a ?u ?n ?w'] =>
          pose proof (Trace_span_parent r' a u n w') as Hp;
          destruct (Trace_span r' a u n w') as [o w1]
      end.
      exists o. split; [reflexivity|]. simpl in *. rewrite Hp.
      by destruct (context.get_current_observation (ctx w)).
Qed.

End ParentLinkage.

(** The theorem at [demo_in_span]: the wrapper links the span it creates
    to the current observation ["S"]. *)
Lemma child_parent_is_the_argument_witness :
  context.get_current_trace (client.ctx demo_in_span) = Some 0%nat /\
  exists o,
    decorators.op_observation
      (decorators.open_observation "inner" "span" VNone "uuid-5"
         "2024-01-01T00:00:04" demo_in_span).1 = Some o /\
    client.parent_of o
      (decorators.open_observation "inner" "span" VNone "uuid-5"
         "2024-01-01T00:00:04" demo_in_span).2
    = Some ((fun p => client.id_of_observation p demo_in_span)
              <$> context.get_current_observation (client.ctx demo_in_span)).
Proof.
  split; [reflexivity|].
  refine (proj2 (proj2 (child_parent_is_the_argument demo_in_span 0%nat
                          "uuid-5" "2024-01-01T00:00:04"))
            "inner" "span" VNone eq_refl).
Defined.

(** C8 as stated fails on a direct call: with span ["S"] as the current
    observation, [trace.span(name="inner")] without a parent argument
    creates a span without parent. *)
Lemma Trace_span_ignores_current_observation :
  let res := client.Trace_span 0%nat
               (client.mkSpanArgs "inner" None None None VNone "DEFAULT")
               "uuid-5" "2024-01-01T00:00:04" demo_in_span in
  context.get_current_observation (client.ctx demo_in_span)
  = Some (client.SpanRef 0) /\
  client.id_of_observation (client.SpanRef 0) demo_in_span = "S" /\
  client.parent_of res.1 res.2 = Some None /\
  client.parent_of res.1 res.2 <> Some (Some "S").
Proof. repeat split. discriminate. Qed.

(** ** A disabled client *)

Section Disabled.
Import client.

Ltac unfold_calls :=
  unfold AgentTrace_trace, Trace_init, Trace__send_create, Trace_span,
    Span_init, Span__send_create, Trace_generation, Generation_init,
    Generation__send_create, Trace_end, Trace_update, Span_end,
    Generation_end, Trace_score, AgentTrace_score, id_of_trace, enqueue,
    with_ctx, with_traces, with_spans, with_generations, with_queue.

Lemma do_call_keeps_flag c w : enabled (do_call c w).2 = enabled w.
Proof.
  destruct w as [en q cx tr sp ge]. destruct c; simpl; unfold_calls; simpl;
    repeat case_match; simpl; try done.
Qed.

Lemma do_call_disabled c w :
  enabled w = false -> _batch_queue (do_call c w).2 = _batch_queue w.
Proof.
  destruct w as [en q cx tr sp ge]. simpl. intros ->.
  destruct c; simpl; unfold_calls; simpl;
    repeat case_match; simpl; try done.
Qed.

Lemma do_call_same c w1 w2 :
  same_objects w1 w2 ->
  (do_call c w1).1 = (do_call c w2).1 /\
  same_objects (do_call c w1).2 (do_call c w2).2.
Proof.
  destruct w1 as [en1 q1 cx tr sp ge], w2 as [en2 q2 cx2 tr2 sp2 ge2].
  unfold same_objects. simpl. intros (<- & <- & <- & <-).
  destruct c; simpl; unfold_calls; simpl;
    destruct en1, en2; simpl;
    repeat case_match; simpl; try done.
Qed.

Lemma do_calls_disabled cs : forall w,
  enabled w = false -> _batch_queue (do_calls cs w).2 = _batch_queue w.
Proof.
  induction cs as [|c cs IH]; intros w Hoff; [done|]. simpl.
  pose proof (do_call_disabled c w Hoff) as Hq.
  pose proof (do_call_keeps_flag c w) as Hf.
  destruct (do_call c w) as [v w1]. simpl in *.
  specialize (IH w1). destruct (do_calls cs w1) as [vs w2]. simpl in *.
  rewrite IH; [done|congruence].
Qed.

Lemma do_calls_same cs : forall w1 w2,
  same_objects w1 w2 ->
  (do_calls cs w1).1 = (do_calls cs w2).1 /\
  same_objects (do_calls cs w1).2 (do_calls cs w2).2.
Proof.
  induction cs as [|c cs IH]; intros w1 w2 Hs; [done|]. simpl.
  destruct (do_call_same c w1 w2 Hs) as [Hv Hs1].
  destruct (do_call c w1) as [v1 w1'], (do_call c w2) as [v2 w2'].
  simpl in *. specialize (IH w1' w2' Hs1).
  destruct (do_calls cs w1') as [vs1 w1''], (do_calls cs w2') as [vs2 w2''].
  simpl in *. destruct IH as [-> ?]. by subst.
Qed.

(** C7. On a disabled client, any sequence of calls of [client.trace],
    [trace.span], [trace.generation], [update], [end] and [score] leaves
    the queue of the client, and with it the record of what the transport
    received, exactly as it was; and, the environment answering the same,
    the calls return the same values and leave the same objects and the
    same context as on the enabled client. *)
Theorem disabled_client_enqueues_nothing (cs : list call) (w : World) :
  enabled w = false ->
  _batch_queue (do_calls cs w).2 = _batch_queue w /\
  (do_calls cs w).1 = (do_calls cs (with_enabled true w)).1 /\
  traces (do_calls cs w).2 = traces (do_calls cs (with_enabled true w)).2 /\
  spans (do_calls cs w).2 = spans (do_calls cs (with_enabled true w)).2 /\
  generations (do_calls cs w).2
  = generations (do_calls cs (with_enabled true w)).2 /\
  ctx (do_calls cs w).2 = ctx (do_calls cs (with_enabled true w)).2.
Proof.
  intros Hoff. split; [by apply do_calls_disabled|].
  destruct (do_calls_same cs w (with_enabled true w)) as (Hv & Hc & Ht & Hs & Hg).
  { by repeat split. }
  by repeat split.
Qed.

End Disabled.

Lemma disabled_client_enqueues_nothing_witness :
  client.enabled demo_disabled = false /\
  client._batch_queue (client.do_calls demo_calls demo_disabled).2
  = client._batch_queue demo_disabled /\
  (client.do_calls demo_calls demo_disabled).1
  = (client.do_calls demo_calls (client.with_enabled true demo_disabled)).1.
Proof.
  split; [reflexivity|].
  pose proof (disabled_client_enqueues_nothing demo_calls demo_disabled eq_refl)
    as (Hq & Hv & _).
  exact (conj Hq Hv).
Defined.

(** The same scenario on the enabled client: four records wait in the
    queue, in the order of the calls. *)
Example demo_calls_enabled :
  ev_type <$> queued (client.do_calls demo_calls
                        (client.with_enabled true demo_disabled)).2
  = ["trace-create"; "generation-create"; "generation-update"; "trace-update"].
Proof. reflexivity. Qed.

(** ** Context scopes *)

Section Scopes.
Import context.
Context {C T O : Type}.
Implicit Types (c : store C T O).

Lemma TraceContext_enter_store trace c :
  (TraceContext_enter (TraceContext_init trace) c).2
  = mkStore (_client_var c) (Holds (Some trace)) (_observation_var c).
Proof. reflexivity. Qed.

Lemma ObservationContext_enter_store observation c :
  (ObservationContext_enter (ObservationContext_init observation) c).2
  = mkStore (_client_var c) (_trace_var c) (Holds (Some observation)).
Proof. reflexivity. Qed.

(** What a [with TraceContext(trace)] block does: the body runs with
    [trace] as the current trace, and afterwards the slot holds again
    what it held on entry, whatever the body did to it and whether the
    body returned or raised. *)
Lemma with_TraceContext_spec {A} trace (b : body C T O A) c :
  let c1 := (TraceContext_enter (TraceContext_init trace) c).2 in
  with_TraceContext trace b c
  = (mkStore (_client_var (b c1).1) (_trace_var c) (_observation_var (b c1).1),
     (b c1).2).
Proof.
  unfold with_TraceContext. simpl. by destruct (b _) as [c2 out].
Qed.

Lemma with_ObservationContext_spec {A} observation (b : body C T O A) c :
  let c1 :=
    (ObservationContext_enter (ObservationContext_init observation) c).2 in
  with_ObservationContext observation b c
  = (mkStore (_client_var (b c1).1) (_trace_var (b c1).1) (_observation_var c),
     (b c1).2).
Proof.
  unfold with_ObservationContext. simpl. by destruct (b _) as [c2 out].
Qed.

Lemma run_in_trace_context_spec {A} trace (func : body C T O A) c :
  let c1 := mkStore (_client_var c) (Holds (Some trace)) (_observation_var c) in
  run_in_trace_context trace func c
  = (mkStore (_client_var (func c1).1) (_trace_var c)
             (_observation_var (func c1).1),
     (func c1).2).
Proof.
  unfold run_in_trace_context. simpl. by destruct (func _) as [c2 out].
Qed.

(** Nested scopes give the store back as they found it. *)
Lemma exec_restores (p : scopes T O) : forall c, (exec p c).1 = c.
Proof.
  induction p as [out|trace p IH|observation p IH|p1 IH1 p2 IH2]; intros c.
  - reflexivity.
  - simpl. rewrite with_TraceContext_spec. simpl. rewrite !IH. by destruct c.
  - simpl. rewrite with_ObservationContext_spec. simpl. rewrite !IH.
    by destruct c.
  - simpl. specialize (IH1 c). destruct (exec p1 c) as [c1 [[]|e]]; simpl in *.
    + subst. apply IH2.
    + done.
Qed.

(** C9. Entering a trace scope, or an observation scope, makes the
    entered value the current one for the body; on exit the slot holds
    what it held before entry, whether the body returned or raised (its
    outcome is passed on), and whatever the body did to the slot; scopes
    nested to any depth leave the whole store as it was. Each scope is
    opened by a manager of its own, [with TraceContext(trace):]. *)
Theorem scope_exit_restores_entry_value :
  (forall A trace (b : body C T O A) c,
      let c1 := (TraceContext_enter (TraceContext_init trace) c).2 in
      get_current_trace c1 = Some trace /\
      _trace_var (with_TraceContext trace b c).1 = _trace_var c /\
      get_current_trace (with_TraceContext trace b c).1 = get_current_trace c /\
      (with_TraceContext trace b c).2 = (b c1).2) /\
  (forall A observation (b : body C T O A) c,
      let c1 :=
        (ObservationContext_enter (ObservationContext_init observation) c).2 in
      get_current_observation c1 = Some observation /\
      _observation_var (with_ObservationContext observation b c).1
      = _observation_var c /\
      get_current_observation (with_ObservationContext observation b c).1
      = get_current_observation c /\
      (with_ObservationContext observation b c).2 = (b c1).2) /\
  (forall (p : scopes T O) c, (exec p c).1 = c).
Proof.
  split; [|split].
  - intros A trace b c c1. subst c1. rewrite with_TraceContext_spec. done.
  - intros A observation b c c1. subst c1.
    rewrite with_ObservationContext_spec. done.
  - apply exec_restores.
Qed.

End Scopes.

(** Two trace scopes in one another, each with an observation scope, the
    inner one raising: the leaves see the innermost values, and the code
    after the inner scope would see the outer ones again. *)
Example nested_scopes_seen :
  context.seen
    (context.InTrace 1%nat
       (context.Then
          (context.InObservation 10%nat
             (context.InTrace 2%nat (context.Leaf (Return tt))))
          (context.Leaf (Raise (Exc "ValueError" "x" true)))))
    (context.empty (C:=unit))
  = ([(Some 2%nat, Some 10%nat); (Some 1%nat, None)],
     Raise (Exc "ValueError" "x" true)).
Proof. reflexivity. Qed.

(** One manager object entered again inside its own scope: the inner
    entry overwrites the token, and the outer exit raises instead of
    restoring. The scopes above are each opened by a manager of their
    own, as in [with TraceContext(trace):]. *)
Example reentered_manager_raises :
  let c0 := context.empty (C:=unit) (T:=nat) (O:=nat) in
  let '(_, m1, c1) := context.TraceContext_enter (context.TraceContext_init 1%nat) c0 in
  let '(_, m2, c2) := context.TraceContext_enter m1 c1 in
  match context.TraceContext_exit m2 c2 with
  | inr (m3, c3) => context.TraceContext_exit m3 c3 = inl context.RuntimeError
  | inl _ => False
  end.
Proof. reflexivity. Qed.

(** ** The observe wrapper *)

Section ErrorPassthrough.
Import client decorators.


(** Ending a live object through the wrapper's handle marks it as ended
    and stores a given, non-[None] output. *)
Lemma close_observation_ends h output now w :
  ended_of h w = Some false -> is_not_None output = true ->
  ended_of h (close_observation h output now w) = Some true /\
  output_of h (close_observation h output now w) = Some output.
Proof.
  unfold ended_of, output_of, close_observation, Observation_end.
  intros He Hout. destruct (op_observation h) as [[r|r]|].
  - unfold Span_end. destruct (spans w !! r) as [sp|]; [|done].
    simpl in He. injection He as ->. simpl. rewrite Hout.
    destruct (enabled w); simpl; rewrite lookup_insert_eq; done.
  - unfold Generation_end. destruct (generations w !! r) as [g|]; [|done].
    simpl in He. injection He as ->. simpl. rewrite Hout.
    destruct (enabled w); simpl; rewrite lookup_insert_eq; done.
  - unfold Trace_end. destruct (traces w !! op_trace h) as [t|]; [|done].
    simpl in He. injection He as ->. simpl. rewrite Hout.
    unfold Trace_update. simpl. rewrite lookup_insert_eq. simpl.
    assert (is_not_None output = true) as Hout' by done.
    destruct (enabled w); simpl; rewrite lookup_insert_eq; simpl;
      rewrite Hout'; done.
Qed.





End ErrorPassthrough.


(** Without a current trace the wrapper makes the trace, and ends it with
    the error-shaped output. *)
Example observe_error_on_created_trace :
  let res := decorators._trace_sync raising_fn VNone "work" "span" true true
               "uuid-6" "2024-01-01T00:00:04" "2024-01-01T00:00:05"
               demo_client in
  res.2 = Raise (Exc "ValueError" "x" true) /\
  client.trace_output <$> client.traces res.1 !! 0%nat
  = Some (VDict [("error", VStr "x")]) /\
  ev_type <$> queued res.1 = ["trace-create"; "trace-update"].
Proof. repeat split. Qed.


(** ** Transport: the retry loops *)

Section RetryLoop.
Import HttpTransport.

(** A loop over the attempts, seen from outside: it goes on after some
    replies, with a sleep, and stops at the others. *)
Context {R : Type} (srv : server) (go : reply -> bool)
  (dly : nat -> reply -> Z)
  (loop : nat -> nat -> list Z -> R)
  (stop out : nat -> list Z -> R).
Hypothesis loop_out : forall a sl, loop a O sl = out a sl.
Hypothesis loop_go : forall a r sl,
  go (srv a) = true -> loop a (S r) sl = loop (S a) r (sl ++ [dly a (srv a)]).
Hypothesis loop_stop : forall a r sl,
  go (srv a) = false -> loop a (S r) sl = stop a sl.

Lemma retry_loop_spec : forall r a sl,
  let j := retried_from go srv a r in
  ((j < r)%nat ->
   go (srv (a + j)%nat) = false /\
   loop a r sl = stop (a + j)%nat (sl ++ ((fun k => dly k (srv k)) <$> seq a j)))
  /\
  (j = r ->
   loop a r sl = out (a + r)%nat (sl ++ ((fun k => dly k (srv k)) <$> seq a r))).
Proof.
  induction r as [|r IH]; intros a sl; simpl.
  - split; [lia|]. intros _. by rewrite loop_out, Nat.add_0_r, app_nil_r.
  - destruct (go (srv a)) eqn:Hgo.
    + destruct (IH (S a) (sl ++ [dly a (srv a)])) as [Hlt Heq].
      rewrite loop_go by done.
      replace (a + S (retried_from go srv (S a) r))%nat
        with (S a + retried_from go srv (S a) r)%nat by lia.
      replace (a + S r)%nat with (S a + r)%nat by lia.
      split.
      * intros Hj. destruct Hlt as [Hstop Hl]; [lia|].
        split; [done|]. rewrite Hl, <- app_assoc. done.
      * intros Hj. rewrite Heq by lia. rewrite <- app_assoc. done.
    + split; [|discriminate]. intros _.
      rewrite Nat.add_0_r, app_nil_r. split; [done|]. by apply loop_stop.
Qed.

End RetryLoop.

Section TransportLoops.
Import HttpTransport.


Lemma goes_on_not_accepted c h :
  goes_on (Response c h) = true -> is_accepted c = false.
Proof.
  unfold goes_on, is_accepted.
  destruct (Z.eqb_spec c 429) as [->|Hn]; [reflexivity|].
  destruct (Z.geb_spec c 500); [|discriminate]. intros _.
  destruct (Z.eqb_spec c 200), (Z.eqb_spec c 201), (Z.eqb_spec c 207);
    simpl; try lia; reflexivity.
Qed.

Lemma attempts_go srv a r sl :
  goes_on (srv a) = true ->
  attempts srv a (S r) sl = attempts srv (S a) r (sl ++ [delay a (srv a)]).
Proof.
  simpl. intros H. destruct (srv a) as [c h| | |]; try done.
  rewrite (goes_on_not_accepted c h H). unfold goes_on, delay in *.
  destruct (Z.eqb_spec c 429) as [->|Hn]; simpl.
  - destruct h as [|n|]; simpl in *; try done.
    by destruct (n <? 0).
  - rewrite H. by destruct h.
Qed.

Lemma attempts_stop srv a r sl :
  goes_on (srv a) = false ->
  attempts srv a (S r) sl
  = mkResult (status_is is_accepted (srv a)) (S a) sl.
Proof.
  unfold goes_on, status_is. simpl. intros H.
  destruct (srv a) as [c h| | |]; try done.
  destruct (is_accepted c) eqn:Hacc; [done|].
  destruct (Z.eqb_spec c 429) as [->|Hn]; simpl.
  - destruct h as [|n|]; simpl in *; try done.
    by destruct (n <? 0).
  - by rewrite H.
Qed.





Lemma async_attempts_go srv a r sl :
  async_goes_on (srv a) = true ->
  AsyncHttpTransport.attempts srv a (S r) sl
  = AsyncHttpTransport.attempts srv (S a) r (sl ++ [delay a (srv a)]).
Proof.
  simpl. intros H. destruct (srv a) as [c h| | |]; try done.
  unfold async_goes_on, delay in *.
  assert (is_accepted c = false) as ->.
  { unfold is_accepted.
    destruct (Z.eqb_spec c 429) as [->|Hn]; [reflexivity|]. simpl in H.
    destruct (Z.geb_spec c 500); [|discriminate].
    destruct (Z.eqb_spec c 200), (Z.eqb_spec c 201), (Z.eqb_spec c 207);
      simpl; try lia; reflexivity. }
  destruct (Z.eqb_spec c 429) as [->|Hn]; simpl.
  - by destruct h.
  - simpl in H. rewrite H. by destruct h.
Qed.

Lemma async_attempts_stop srv a r sl :
  async_goes_on (srv a) = false ->
  AsyncHttpTransport.attempts srv a (S r) sl
  = mkResult (status_is is_accepted (srv a)) (S a) sl.
Proof.
  unfold async_goes_on, status_is. simpl. intros H.
  destruct (srv a) as [c h| | |]; try done.
  destruct (is_accepted c); [done|].
  apply orb_false_iff in H as [-> ->]. done.
Qed.


(** X2. When each of the [max_retries] replies is a 5xx, a timeout or a
    request error, [send_batch] makes exactly [max_retries] requests,
    returns false, and sleeps [0.5 s * 2^k] after attempt [k], the last
    attempt included. *)
Theorem send_batch_backoff_schedule {E} (e : E) (es : list E)
    (max_retries : Z) (srv : server) :
  (forall k, (k < Z.to_nat max_retries)%nat ->
             status_is (fun c => c >=? 500) (srv k) = true
             \/ srv k = TimeoutException \/ srv k = RequestError) ->
  let res := send_batch max_retries srv (e :: es) in
  ok res = false /\ requests res = Z.to_nat max_retries /\
  slept res = (fun k => 500 * 2 ^ Z.of_nat k) <$> seq 0 (Z.to_nat max_retries).
Proof.
  intros Hall res. subst res. unfold send_batch.
  set (n := Z.to_nat max_retries) in *.
  assert (Hgo : forall k, (k < n)%nat ->
                          goes_on (srv k) = true /\ delay k (srv k) = backoff k).
  { intros k Hk. destruct (Hall k Hk) as [H|[H|H]].
    - destruct (srv k) as [c h| | |]; simpl in H; try discriminate.
      unfold goes_on, delay.
      destruct (Z.geb_spec c 500); [|discriminate].
      destruct (Z.eqb_spec c 429); [lia|]. split; [reflexivity|by destruct h].
    - rewrite H. done.
    - rewrite H. done. }
  assert (Hj : forall r a, (a + r <= n)%nat -> retried_from goes_on srv a r = r).
  { induction r as [|r IH]; intros a Ha; simpl; [done|].
    destruct (Hgo a) as [-> _]; [lia|]. rewrite IH; [done|lia]. }
  destruct (retry_loop_spec srv goes_on delay (attempts srv)
              (fun a sl => mkResult (status_is is_accepted (srv a)) (S a) sl)
              (fun a sl => mkResult false a sl)
              (fun a sl => eq_refl) (attempts_go srv) (attempts_stop srv)
              n 0%nat []) as [_ Heq].
  rewrite Heq by (apply Hj; lia). simpl. repeat split.
  apply list_fmap_ext. intros i k Hk.
  apply lookup_seq in Hk as [-> Hlt]. simpl.
  destruct (Hgo i Hlt) as [_ ->]. unfold backoff. lia.
Qed.



(** X5. [AsyncHttpTransport.send_batch] retries after every exception
    and every 429, whatever its header: on a batch that is not empty it
    stops early only at a response whose status is accepted, or is below
    500 and not 429; it returns true exactly when the status is
    accepted. *)
Theorem async_send_batch_retries_every_exception {E} (e : E) (es : list E)
    (max_retries : Z) (srv : server) :
  let n := Z.to_nat max_retries in
  let j := retried_from async_goes_on srv 0 n in
  let res := AsyncHttpTransport.send_batch max_retries srv (e :: es) in
  ((j < n)%nat ->
   (exists c h, srv j = Response c h /\ c <> 429 /\ c < 500) /\
   ok res = status_is is_accepted (srv j) /\ requests res = S j) /\
  (j = n -> ok res = false /\ requests res = n).
Proof.
  intros n j res. subst res. unfold AsyncHttpTransport.send_batch. fold n.
  destruct (retry_loop_spec srv async_goes_on delay
              (AsyncHttpTransport.attempts srv)
              (fun a sl => mkResult (status_is is_accepted (srv a)) (S a) sl)
              (fun a sl => mkResult false a sl)
              (fun a sl => eq_refl) (async_attempts_go srv)
              (async_attempts_stop srv) n 0%nat []) as [Hlt Heq].
  fold j in Hlt, Heq. simpl in Hlt, Heq.
  repeat split.
  - destruct (Hlt H) as [Hstop _]. unfold async_goes_on in Hstop.
    destruct (srv j) as [c h| | |]; try discriminate.
    apply orb_false_iff in Hstop as [H1 H2].
    exists c, h. split; [done|].
    destruct (Z.eqb_spec c 429); [discriminate|].
    destruct (Z.geb_spec c 500); [discriminate|]. lia.
  - destruct (Hlt H) as [_ ->]. done.
  - destruct (Hlt H) as [_ ->]. done.
  - by rewrite (Heq H).
  - by rewrite (Heq H).
Qed.

End TransportLoops.

(** The backoff theorem at a server that always times out, with three
    attempts: 0.5 s, 1 s and 2 s of sleep. *)
Lemma send_batch_backoff_schedule_witness :
  let srv := fun _ : nat => HttpTransport.TimeoutException in
  (forall k, (k < Z.to_nat 3)%nat ->
             status_is (fun c => c >=? 500) (srv k) = true
             \/ srv k = HttpTransport.TimeoutException
             \/ srv k = HttpTransport.RequestError) /\
  HttpTransport.slept (HttpTransport.send_batch 3 srv [tt])
  = [500; 1000; 2000].
Proof.
  intros srv.
  assert (H : forall k, (k < Z.to_nat 3)%nat ->
             status_is (fun c => c >=? 500) (srv k) = true
             \/ srv k = HttpTransport.TimeoutException
             \/ srv k = HttpTransport.RequestError)
    by (intros k _; right; left; reflexivity).
  split; [exact H|].
  exact (proj2 (proj2 (send_batch_backoff_schedule tt [] 3 srv H))).
Defined.

(** ** Batch queue: what any schedule keeps *)

Section Schedules.
Import BatchQueue.
Context {E : Type}.
Implicit Types (q : t E) (e : E).

Lemma pipeline_flush q : pipeline (flush q) ≡ₚ pipeline q.
Proof.
  unfold pipeline. rewrite flush_delivers_queue_then_batch.
  assert (_batch (flush q) = [] /\ _queue (flush q) = []) as [-> ->].
  { unfold flush, _send_batch. by destruct (_queue q ++ _batch q). }
  rewrite !app_nil_r. apply Permutation_app_head, Permutation_app_comm.
Qed.

Lemma pipeline_step o q :
  pipeline (step o q) ≡ₚ pipeline q ++ accepted [o] q.
Proof.
  destruct o as [e| |now|]; simpl; rewrite ?app_nil_r.
  - destruct (full q) eqn:Hf.
    + by rewrite pipeline_add_dropped, app_nil_r.
    + by rewrite pipeline_add_accepted.
  - apply pipeline_flush.
  - by rewrite worker_keeps_arrival_order.
  - unfold stop. by rewrite pipeline_flush.
Qed.

Lemma pipeline_step_no_flush o q :
  no_flush o -> pipeline (step o q) = pipeline q ++ accepted [o] q.
Proof.
  destruct o as [e| |now|]; simpl; try done; intros _; rewrite ?app_nil_r.
  - destruct (full q) eqn:Hf.
    + by rewrite pipeline_add_dropped, app_nil_r.
    + by rewrite pipeline_add_accepted.
  - by rewrite worker_keeps_arrival_order.
Qed.

Lemma accepted_cons o ops q :
  accepted (o :: ops) q = accepted [o] q ++ accepted ops (step o q).
Proof. simpl. by rewrite app_nil_r. Qed.

(** X6. Under any schedule of [add], [flush], [stop] and worker
    iterations, the records handed to the transport together with those
    still in the batch and in the queue are, up to their order, the
    records there were at the start and the records accepted since: none
    is lost and none is handed over twice. *)
Theorem schedule_loses_and_duplicates_nothing (ops : list (op E)) q :
  pipeline (run ops q) ≡ₚ pipeline q ++ accepted ops q.
Proof.
  revert q. induction ops as [|o ops IH]; intros q.
  - simpl. by rewrite app_nil_r.
  - change (run (o :: ops) q) with (run ops (step o q)).
    rewrite IH, accepted_cons, pipeline_step, app_assoc. done.
Qed.

(** X7. Without [flush] and [stop], that is with the producers and the
    worker alone, the order is kept as well: what the transport has
    received, followed by the batch and the queue, is the sequence of the
    accepted records in the order of their [add] calls. *)
Theorem worker_delivers_in_arrival_order (ops : list (op E)) q :
  Forall no_flush ops ->
  pipeline (run ops q) = pipeline q ++ accepted ops q /\
  delivered (run ops q) `prefix_of` pipeline q ++ accepted ops q.
Proof.
  intros Hops.
  assert (pipeline (run ops q) = pipeline q ++ accepted ops q) as Heq.
  { revert q. induction Hops as [|o ops Ho Hops IH]; intros q.
    - simpl. by rewrite app_nil_r.
    - change (run (o :: ops) q) with (run ops (step o q)).
      rewrite IH, accepted_cons, pipeline_step_no_flush, app_assoc; done. }
  split; [done|]. rewrite <- Heq. unfold pipeline. by eexists.
Qed.

Lemma sent_send_batch events q :
  sent (_send_batch events q)
  = sent q ++ (if bool_decide (events = []) then [] else [events]).
Proof.
  destruct events; simpl; [by rewrite app_nil_r|done].
Qed.

(** The batches a step hands to the transport. *)
Lemma step_new_batches o q :
  exists news, sent (step o q) = sent q ++ news /\
               Forall (fun b => b <> []) news /\
               (no_flush o -> 0 < _flush_at q ->
                (Z.of_nat (length (_batch q)) < _flush_at q ->
                 Forall (fun b => Z.of_nat (length b) <= _flush_at q) news /\
                 Z.of_nat (length (_batch (step o q))) < _flush_at q)) /\
               _flush_at (step o q) = _flush_at q.
Proof.
  destruct o as [e| |now|]; simpl.
  - exists []. rewrite app_nil_r. unfold add. destruct (full q); simpl; done.
  - unfold flush. rewrite sent_send_batch. simpl.
    eexists. split; [done|]. split; [|split; [done|]].
    + case_bool_decide; [done|]. by constructor.
    + unfold _send_batch. by destruct (_queue q ++ _batch q).
  - unfold flush_loop_iter. destruct (_running q).
    2:{ exists []. rewrite app_nil_r. done. }
    assert (sent (drain_one q) = sent q /\ _flush_at (drain_one q) = _flush_at q
            /\ (length (_batch (drain_one q)) <= S (length (_batch q)))%nat)
      as (Hs & Ha & Hl).
    { unfold drain_one. destruct (_queue q); simpl.
      - repeat split. lia.
      - rewrite length_app. simpl. repeat split. lia. }
    unfold check_and_send.
    destruct (should_flush now (drain_one q)) eqn:Hsf.
    + rewrite sent_send_batch. simpl. rewrite Hs.
      eexists. split; [done|]. split; [|split].
      * case_bool_decide; [done|]. by constructor.
      * intros _ Hpos Hlen. rewrite Ha. split.
        -- case_bool_decide; [done|]. constructor; [|done]. lia.
        -- unfold _send_batch. destruct (_batch (drain_one q)); simpl; lia.
      * unfold _send_batch. by destruct (_batch (drain_one q)).
    + exists []. rewrite app_nil_r, Hs. split; [done|]. split; [done|].
      split; [|done]. intros _ Hpos Hlen. split; [done|].
      unfold should_flush in Hsf. apply orb_false_iff in Hsf as [Hsf _].
      apply Z.leb_gt in Hsf. lia.
  - unfold stop, flush. rewrite sent_send_batch. simpl.
    eexists. split; [done|]. split; [|split; [done|]].
    + case_bool_decide; [done|]. by constructor.
    + unfold _send_batch. by destruct (_queue q ++ _batch q).
Qed.

(** X8. The transport is never handed an empty batch: whatever the
    schedule, every batch sent during it holds at least one record. *)
Theorem no_empty_batch_is_sent (ops : list (op E)) q :
  exists news, sent (run ops q) = sent q ++ news /\
               Forall (fun b => b <> []) news.
Proof.
  revert q. induction ops as [|o ops IH]; intros q.
  - exists []. by rewrite app_nil_r.
  - change (run (o :: ops) q) with (run ops (step o q)).
    destruct (step_new_batches o q) as (n1 & H1 & F1 & _).
    destruct (IH (step o q)) as (n2 & H2 & F2).
    exists (n1 ++ n2). rewrite H2, H1, app_assoc. split; [done|].
    by apply Forall_app.
Qed.

(** X9. With a positive [flush_at] and a batch below it, the worker on
    its own never lets the batch reach more than [flush_at] records:
    without [flush] and [stop], every batch sent holds at most
    [flush_at] records and the batch kept stays below [flush_at]. *)
Theorem worker_batches_hold_at_most_flush_at (ops : list (op E)) q :
  Forall no_flush ops -> 0 < _flush_at q ->
  Z.of_nat (length (_batch q)) < _flush_at q ->
  exists news, sent (run ops q) = sent q ++ news /\
               Forall (fun b => Z.of_nat (length b) <= _flush_at q) news /\
               Z.of_nat (length (_batch (run ops q))) < _flush_at q.
Proof.
  intros Hops. revert q.
  induction Hops as [|o ops Ho Hops IH]; intros q Hpos Hlen.
  - exists []. by rewrite app_nil_r.
  - change (run (o :: ops) q) with (run ops (step o q)).
    destruct (step_new_batches o q) as (n1 & H1 & _ & Hb & Ha).
    destruct (Hb Ho Hpos Hlen) as [F1 Hlen1].
    destruct (IH (step o q)) as (n2 & H2 & F2 & Hlen2); [by rewrite Ha..|].
    rewrite Ha in *.
    exists (n1 ++ n2). rewrite H2, H1, app_assoc. split; [done|].
    split; [by apply Forall_app|done].
Qed.

Lemma step_queue_bound o q :
  0 < _max_queue_size q ->
  Z.of_nat (length (_queue q)) <= _max_queue_size q ->
  Z.of_nat (length (_queue (step o q))) <= _max_queue_size (step o q) /\
  _max_queue_size (step o q) = _max_queue_size q.
Proof.
  intros Hpos Hlen. destruct o as [e| |now|]; simpl.
  - unfold add, full. destruct (Z.ltb_spec 0 (_max_queue_size q)); [|lia].
    destruct (Z.leb_spec (_max_queue_size q) (Z.of_nat (length (_queue q))));
      simpl; [done|]. rewrite length_app. simpl. lia.
  - unfold flush, _send_batch. destruct (_queue q ++ _batch q); simpl; lia.
  - unfold flush_loop_iter. destruct (_running q); [|done].
    assert (_max_queue_size (drain_one q) = _max_queue_size q /\
            (length (_queue (drain_one q)) <= length (_queue q))%nat) as [Hm Hl].
    { unfold drain_one. destruct (_queue q) as [|x l] eqn:Hq; simpl.
      - rewrite Hq. done.
      - split; [done|lia]. }
    assert (Z.of_nat (length (_queue (drain_one q))) <= _max_queue_size q)
      as Hq by (etransitivity; [apply inj_le, Hl|exact Hlen]).
    unfold check_and_send. destruct (should_flush now (drain_one q)).
    + unfold _send_batch. destruct (_batch (drain_one q)); simpl;
        rewrite ?Hm; split; done.
    + rewrite Hm. split; done.
  - unfold stop, flush, _send_batch. simpl.
    destruct (_queue q ++ _batch q); simpl; (split; [lia|done]).
Qed.

(** X10. A queue with a positive capacity never holds more records than
    its capacity, whatever the schedule. *)
Theorem queue_never_exceeds_capacity (ops : list (op E)) q :
  0 < _max_queue_size q ->
  Z.of_nat (length (_queue q)) <= _max_queue_size q ->
  Z.of_nat (length (_queue (run ops q))) <= _max_queue_size q.
Proof.
  revert q. induction ops as [|o ops IH]; intros q Hpos Hlen; [done|].
  change (run (o :: ops) q) with (run ops (step o q)).
  destruct (step_queue_bound o q Hpos Hlen) as [H1 H2].
  rewrite <- H2. apply IH; [by rewrite H2|exact H1].
Qed.

End Schedules.

(** The order theorem at two records added around a worker iteration. *)
Lemma worker_delivers_in_arrival_order_witness :
  let ops := [BatchQueue.Add 1%nat; BatchQueue.WorkerIter 100;
              BatchQueue.Add 2%nat; BatchQueue.WorkerIter 200] in
  let q := BatchQueue.init 2 5000 10000 0 in
  Forall no_flush ops /\
  pipeline (BatchQueue.run ops q) = [1%nat; 2%nat] /\
  BatchQueue.sent (BatchQueue.run ops q) = [[1%nat; 2%nat]].
Proof.
  intros ops q.
  assert (Forall no_flush ops) as H by (repeat constructor).
  split; [exact H|].
  split; [exact (proj1 (worker_delivers_in_arrival_order ops q H))|reflexivity].
Defined.

(** The size theorem at five records and a worker with [flush_at = 2]. *)
Lemma worker_batches_hold_at_most_flush_at_witness :
  let ops := (BatchQueue.Add <$> seq 1 5)
             ++ (BatchQueue.WorkerIter <$> repeat 100 5) in
  let q := BatchQueue.init 2 5000 10000 0 in
  Forall no_flush ops /\ 0 < BatchQueue._flush_at q /\
  Z.of_nat (length (BatchQueue._batch q)) < BatchQueue._flush_at q /\
  BatchQueue.sent (BatchQueue.run ops q) = [[1%nat; 2%nat]; [3%nat; 4%nat]] /\
  exists news,
    BatchQueue.sent (BatchQueue.run ops q) = BatchQueue.sent q ++ news /\
    Forall (fun b => Z.of_nat (length b) <= BatchQueue._flush_at q) news /\
    Z.of_nat (length (BatchQueue._batch (BatchQueue.run ops q)))
    < BatchQueue._flush_at q.
Proof.
  intros ops q.
  assert (Forall no_flush ops) as H by (repeat constructor).
  split; [exact H|]. split; [reflexivity|]. split; [reflexivity|].
  split; [reflexivity|].
  exact (worker_batches_hold_at_most_flush_at ops q H eq_refl eq_refl).
Defined.

(** The capacity theorem at a queue of capacity 2 and three [add]s. *)
Lemma queue_never_exceeds_capacity_witness :
  let ops := [BatchQueue.Add 1%nat; BatchQueue.Add 2%nat; BatchQueue.Add 3%nat] in
  let q := BatchQueue.init 20 5000 2 0 in
  0 < BatchQueue._max_queue_size q /\
  Z.of_nat (length (BatchQueue._queue q)) <= BatchQueue._max_queue_size q /\
  BatchQueue._queue (BatchQueue.run ops q) = [1%nat; 2%nat] /\
  Z.of_nat (length (BatchQueue._queue (BatchQueue.run ops q)))
  <= BatchQueue._max_queue_size q.
Proof.
  intros ops q. split; [reflexivity|].
  assert (Z.of_nat (length (BatchQueue._queue q)) <= BatchQueue._max_queue_size q)
    as H by (simpl; lia).
  split; [exact H|]. split; [reflexivity|].
  exact (queue_never_exceeds_capacity ops q eq_refl H).
Defined.

(** ** Batch queue: after [stop] *)

Section AfterStop.
Import BatchQueue.
Context {E : Type}.
Implicit Types (q : t E) (e : E).



End AfterStop.


(** ** The asynchronous batch queue *)

Section AsyncQueue.
Context {E : Type}.
Implicit Types (a : AsyncBatchQueue.t E) (e : E).

Lemma async_pipeline_flush now a :
  async_pipeline (AsyncBatchQueue.flush now a) = async_pipeline a.
Proof.
  unfold async_pipeline, AsyncBatchQueue.flush.
  destruct (AsyncBatchQueue._batch a) as [|x l] eqn:Hb; simpl.
  - by rewrite Hb.
  - rewrite concat_app. simpl. by rewrite !app_nil_r.
Qed.

Lemma async_pipeline_step o a :
  async_pipeline (async_step o a) = async_pipeline a ++ async_accepted [o] a.
Proof.
  destruct o as [e now|now|now|now]; simpl; rewrite ?app_nil_r.
  - unfold AsyncBatchQueue.add.
    destruct (AsyncBatchQueue._max_queue_size a
              <=? Z.of_nat (length (AsyncBatchQueue._batch a))); simpl.
    { by rewrite app_nil_r. }
    match goal with
    | |- context [if ?c then _ else _] => destruct c
    end; simpl.
    + rewrite async_pipeline_flush. unfold async_pipeline. simpl.
      by rewrite app_assoc.
    + unfold async_pipeline. simpl. by rewrite app_assoc.
  - unfold AsyncBatchQueue.check_flush.
    match goal with
    | |- context [if ?c then _ else _] => destruct c
    end; [apply async_pipeline_flush|done].
  - apply async_pipeline_flush.
  - apply async_pipeline_flush.
Qed.

(** X12. [AsyncBatchQueue] keeps the order of arrival under every
    sequence of [add], [check_flush], [flush] and [stop]: the batches
    sent, one after the other, followed by the pending batch, are the
    accepted records in the order of their [add] calls. *)
Theorem async_queue_delivers_in_arrival_order (ops : list (async_op E)) a :
  async_pipeline (async_run ops a) = async_pipeline a ++ async_accepted ops a.
Proof.
  revert a. induction ops as [|o ops IH]; intros a.
  - simpl. by rewrite app_nil_r.
  - change (async_run (o :: ops) a) with (async_run ops (async_step o a)).
    rewrite IH, async_pipeline_step. simpl. by rewrite !app_nil_r, app_assoc.
Qed.

Lemma async_step_bound o a :
  0 < AsyncBatchQueue._flush_at a ->
  Z.of_nat (length (AsyncBatchQueue._batch a)) < AsyncBatchQueue._flush_at a ->
  exists news,
    AsyncBatchQueue.sent (async_step o a) = AsyncBatchQueue.sent a ++ news /\
    Forall (fun b => b <> [] /\
                     Z.of_nat (length b) <= AsyncBatchQueue._flush_at a) news /\
    Z.of_nat (length (AsyncBatchQueue._batch (async_step o a)))
    < AsyncBatchQueue._flush_at a /\
    AsyncBatchQueue._flush_at (async_step o a) = AsyncBatchQueue._flush_at a.
Proof.
  intros Hpos Hlen.
  assert (Hflush : forall now,
    exists news,
      AsyncBatchQueue.sent (AsyncBatchQueue.flush now a)
      = AsyncBatchQueue.sent a ++ news /\
      Forall (fun b => b <> [] /\
                       Z.of_nat (length b) <= AsyncBatchQueue._flush_at a) news /\
      Z.of_nat (length (AsyncBatchQueue._batch (AsyncBatchQueue.flush now a)))
      < AsyncBatchQueue._flush_at a /\
      AsyncBatchQueue._flush_at (AsyncBatchQueue.flush now a)
      = AsyncBatchQueue._flush_at a).
  { intros now. unfold AsyncBatchQueue.flush.
    destruct (AsyncBatchQueue._batch a) as [|x l] eqn:Hb.
    - exists []. rewrite app_nil_r, Hb. done.
    - exists [x :: l]. simpl. split; [done|]. split; [|done].
      constructor; [|done]. split; [done|]. lia. }
  destruct o as [e now|now|now|now]; simpl; try apply Hflush.
  - unfold AsyncBatchQueue.add.
    destruct (AsyncBatchQueue._max_queue_size a
              <=? Z.of_nat (length (AsyncBatchQueue._batch a))); simpl.
    { exists []. by rewrite app_nil_r. }
    rewrite length_app. simpl.
    destruct (Z.leb_spec (AsyncBatchQueue._flush_at a)
                (Z.of_nat (length (AsyncBatchQueue._batch a) + 1))); simpl.
    + unfold AsyncBatchQueue.flush. simpl.
      destruct (AsyncBatchQueue._batch a ++ [e]) as [|x l] eqn:Hb.
      { by destruct (AsyncBatchQueue._batch a). }
      simpl. eexists. split; [done|]. split; [|split; [simpl; lia|done]].
      constructor; [|done]. split; [done|].
      rewrite <- Hb, length_app. simpl. lia.
    + exists []. rewrite app_nil_r, length_app. simpl.
      repeat split; try done; lia.
  - unfold AsyncBatchQueue.check_flush.
    match goal with
    | |- context [if ?c then _ else _] => destruct c
    end; [apply Hflush|]. exists []. by rewrite app_nil_r.
Qed.

(** X13. With a positive [flush_at] and fewer than [flush_at] records
    pending, an [AsyncBatchQueue] never has [flush_at] records pending
    once a call has returned, and every batch it sends holds at least
    one and at most [flush_at] records. *)
Theorem async_queue_stays_below_flush_at (ops : list (async_op E)) a :
  0 < AsyncBatchQueue._flush_at a ->
  Z.of_nat (AsyncBatchQueue.pending_count a) < AsyncBatchQueue._flush_at a ->
  exists news,
    AsyncBatchQueue.sent (async_run ops a) = AsyncBatchQueue.sent a ++ news /\
    Forall (fun b => b <> [] /\
                     Z.of_nat (length b) <= AsyncBatchQueue._flush_at a) news /\
    Z.of_nat (AsyncBatchQueue.pending_count (async_run ops a))
    < AsyncBatchQueue._flush_at a.
Proof.
  unfold AsyncBatchQueue.pending_count.
  revert a. induction ops as [|o ops IH]; intros a Hpos Hlen.
  - exists []. by rewrite app_nil_r.
  - change (async_run (o :: ops) a) with (async_run ops (async_step o a)).
    destruct (async_step_bound o a Hpos Hlen) as (n1 & H1 & F1 & Hl1 & Ha).
    destruct (IH (async_step o a)) as (n2 & H2 & F2 & Hl2); [by rewrite Ha..|].
    rewrite Ha in *.
    exists (n1 ++ n2). rewrite H2, H1, app_assoc. split; [done|].
    split; [by apply Forall_app|done].
Qed.

(** X14. A capacity that is not positive means opposite things in the
    two queues: [AsyncBatchQueue.add] then drops every record and
    changes nothing, [BatchQueue.add] accepts every record. *)
Theorem non_positive_capacity_drops_or_accepts_all e (now : Z) a
    (q : BatchQueue.t E) :
  (AsyncBatchQueue._max_queue_size a <= 0 ->
   AsyncBatchQueue.add e now a = (false, a)) /\
  (BatchQueue._max_queue_size q <= 0 ->
   (BatchQueue.add e q).1 = true /\
   BatchQueue._queue (BatchQueue.add e q).2 = BatchQueue._queue q ++ [e]).
Proof.
  split.
  - intros H. unfold AsyncBatchQueue.add.
    destruct (Z.leb_spec (AsyncBatchQueue._max_queue_size a)
                (Z.of_nat (length (AsyncBatchQueue._batch a)))); [done|lia].
  - intros H. unfold BatchQueue.add, BatchQueue.full.
    destruct (Z.ltb_spec 0 (BatchQueue._max_queue_size q)); [lia|]. done.
Qed.

End AsyncQueue.

(** The bound at a queue with [flush_at = 2] and three records. *)
Lemma async_queue_stays_below_flush_at_witness :
  let a := AsyncBatchQueue.init 2 5000 10000 0 in
  let ops := [AsyncAdd 1%nat 10; AsyncAdd 2%nat 20; AsyncAdd 3%nat 30] in
  0 < AsyncBatchQueue._flush_at a /\
  Z.of_nat (AsyncBatchQueue.pending_count a) < AsyncBatchQueue._flush_at a /\
  AsyncBatchQueue.sent (async_run ops a) = [[1%nat; 2%nat]] /\
  Z.of_nat (AsyncBatchQueue.pending_count (async_run ops a))
  < AsyncBatchQueue._flush_at a.
Proof.
  intros a ops. split; [reflexivity|]. split; [reflexivity|].
  split; [reflexivity|].
  destruct (async_queue_stays_below_flush_at ops a eq_refl eq_refl)
    as (news & _ & _ & H).
  exact H.
Defined.

(** ** Context: helpers and reused managers *)

Section ContextHelpers.
Import context.
Context {C T O : Type}.
Implicit Types (c : store C T O).

(** X15. [run_in_trace_context] calls the function with [trace] as the
    current trace and the two other slots as they were; afterwards the
    trace slot holds again what it held before the call, whether the
    function returned or raised, and the outcome of the function is the
    outcome of the call. *)
Theorem run_in_trace_context_restores {A} (trace : T) (func : body C T O A) c :
  let c1 := mkStore (_client_var c) (Holds (Some trace)) (_observation_var c) in
  get_current_trace c1 = Some trace /\
  (run_in_trace_context trace func c).2 = (func c1).2 /\
  _trace_var (run_in_trace_context trace func c).1 = _trace_var c /\
  _client_var (run_in_trace_context trace func c).1 = _client_var (func c1).1 /\
  _observation_var (run_in_trace_context trace func c).1
  = _observation_var (func c1).1.
Proof.
  intros c1. subst c1. rewrite run_in_trace_context_spec. done.
Qed.

(** X16. A [TraceContext] object may be used again after its scope: each
    entry takes a new token, so the exit that follows restores what the
    slot held at that entry, whatever the object went through before.
    Entered again inside its own scope, it loses the outer token: the
    inner exit restores the value of the inner entry, and the outer
    exit raises [RuntimeError] and restores nothing. *)
Theorem reused_manager_restores_reentered_raises (m : TraceContext T)
    (c c' c'' : store C T O) :
  let m1 := (TraceContext_enter m c).1.2 in
  let c1 := (TraceContext_enter m c).2 in
  (exists m2 c2,
      TraceContext_exit m1 c' = inr (m2, c2) /\
      _trace_var c2 = _trace_var c /\
      _client_var c2 = _client_var c' /\
      _observation_var c2 = _observation_var c') /\
  (let m2 := (TraceContext_enter m1 c').1.2 in
   exists m3 c3,
     TraceContext_exit m2 c'' = inr (m3, c3) /\
     _trace_var c3 = _trace_var c' /\
     forall c4, TraceContext_exit m3 c4 = inl RuntimeError).
Proof.
  intros m1 c1. split.
  - subst m1. unfold TraceContext_enter, TraceContext_exit. simpl.
    eexists _, _. repeat split.
  - intros m2. subst m2 m1.
    unfold TraceContext_enter, TraceContext_exit. simpl.
    eexists _, _. repeat split.
Qed.

End ContextHelpers.

(** ** Observation model: metadata, queue and objects *)

Section Metadata.
Import client.

Lemma dict_get_set_eq k v d : dict_get k (dict_set k v d) = Some v.
Proof.
  induction d as [|[k' v'] d IH]; simpl.
  - by rewrite String.eqb_refl.
  - destruct (String.eqb k k') eqn:Hk; simpl; rewrite Hk; done.
Qed.

Lemma dict_get_set_ne k k' v d :
  k' <> k -> dict_get k' (dict_set k v d) = dict_get k' d.
Proof.
  intros Hne. induction d as [|[k1 v1] d IH]; simpl.
  - destruct (String.eqb_spec k' k); [done|done].
  - destruct (String.eqb_spec k k1) as [->|Hk1]; simpl.
    + destruct (String.eqb_spec k' k1); [done|done].
    + by rewrite IH.
Qed.

Lemma dict_set_keys k v d :
  (fst <$> d) `prefix_of` (fst <$> dict_set k v d).
Proof.
  induction d as [|[k1 v1] d IH]; simpl.
  - apply prefix_nil.
  - destruct (String.eqb k k1); simpl; [done|]. by apply prefix_cons.
Qed.

Lemma dict_get_app k d1 d2 :
  dict_get k (d1 ++ d2)
  = match dict_get k d1 with Some v => Some v | None => dict_get k d2 end.
Proof.
  induction d1 as [|[k1 v1] d1 IH]; simpl; [done|].
  by destruct (String.eqb k k1).
Qed.

Lemma dict_update_get k m : forall d,
  dict_get k (dict_update d m)
  = match dict_get k (rev m) with Some v => Some v | None => dict_get k d end.
Proof.
  unfold dict_update. induction m as [|[k1 v1] m IH]; intros d; simpl; [done|].
  rewrite IH, dict_get_app. simpl.
  destruct (dict_get k (rev m)); [done|].
  destruct (String.eqb_spec k k1) as [->|Hne].
  - apply dict_get_set_eq.
  - by apply dict_get_set_ne.
Qed.

Lemma dict_update_keys m : forall d,
  (fst <$> d) `prefix_of` (fst <$> dict_update d m).
Proof.
  unfold dict_update. induction m as [|[k1 v1] m IH]; intros d; simpl; [done|].
  etransitivity; [apply (dict_set_keys k1 v1)|apply IH].
Qed.

(** X17. [Trace.update(metadata=m)] merges [m] into the metadata of the
    trace key by key: a key of [m] gets the value [m] gives it (the last
    one, were a key given twice), every other key keeps its value, and
    the keys the trace had keep their places, new keys coming after
    them. *)
Theorem Trace_update_merges_metadata (w : World) (r : trace_ref) (t : Trace)
    (a : update_args) (m : pydict) :
  traces w !! r = Some t -> ua_metadata a = Some m ->
  exists t',
    traces (Trace_update r a w) !! r = Some t' /\
    (forall k, dict_get k (trace_metadata t')
               = match dict_get k (rev m) with
                 | Some v => Some v
                 | None => dict_get k (trace_metadata t)
                 end) /\
    (fst <$> trace_metadata t) `prefix_of` (fst <$> trace_metadata t').
Proof.
  intros Hl Hm. exists (apply_update a t). split.
  - unfold Trace_update. rewrite Hl. simpl.
    destruct (enabled w); simpl; by rewrite lookup_insert_eq.
  - unfold apply_update. simpl. rewrite Hm. split.
    + intros k. apply dict_update_get.
    + apply dict_update_keys.
Qed.

End Metadata.

(** The theorem at [demo_with_metadata]: the update changes ["run"] and
    adds ["user"], and leaves ["env"] first. *)
Lemma Trace_update_merges_metadata_witness :
  let a := client.mkUpdateArgs None None None
             (Some [("run", VInt 2); ("user", VStr "u")]) None VNone VNone None in
  client.trace_metadata
    <$> client.traces (client.Trace_update 0%nat a demo_with_metadata) !! 0%nat
  = Some [("env", VStr "dev"); ("run", VInt 2); ("user", VStr "u")] /\
  exists t',
    client.traces (client.Trace_update 0%nat a demo_with_metadata) !! 0%nat
    = Some t' /\
    dict_get "run" (client.trace_metadata t') = Some (VInt 2).
Proof.
  intros a. split; [reflexivity|].
  destruct (Trace_update_merges_metadata demo_with_metadata 0%nat _ a
              [("run", VInt 2); ("user", VStr "u")] eq_refl eq_refl)
    as (t' & Hl & Hget & _).
  exists t'. split; [exact Hl|]. exact (Hget "run").
Defined.

Section CallsAndQueue.
Import client.
Implicit Types (w : World).

Lemma appends_same w w' :
  _batch_queue w' = _batch_queue w -> enabled w' = enabled w ->
  appends_at_most_one w w'.
Proof.
  intros Hq He. exists []. unfold queued. rewrite Hq, app_nil_r. simpl.
  repeat split; try done. lia.
Qed.

Lemma appends_enqueue e w w' :
  _batch_queue w' = _batch_queue w -> enabled w' = enabled w ->
  appends_at_most_one w (enqueue e w').
Proof.
  intros Hq He. unfold appends_at_most_one, queued, enqueue, BatchQueue.add.
  simpl. rewrite Hq. destruct (BatchQueue.full (_batch_queue w)); simpl.
  - exists []. rewrite app_nil_r. simpl. repeat split; try done. lia.
  - exists [e]. repeat split; done.
Qed.

Lemma appends_gated e w w' :
  _batch_queue w' = _batch_queue w -> enabled w' = enabled w ->
  appends_at_most_one w (if enabled w' then enqueue e w' else w').
Proof.
  intros Hq He. destruct (enabled w') eqn:Hen;
    [apply appends_enqueue|apply appends_same]; congruence.
Qed.

Lemma appends_gated_neg e w w' :
  _batch_queue w' = _batch_queue w -> enabled w' = enabled w ->
  appends_at_most_one w (if negb (enabled w') then w' else enqueue e w').
Proof.
  intros Hq He. destruct (enabled w') eqn:Hen; simpl;
    [apply appends_enqueue|apply appends_same]; congruence.
Qed.

Lemma appends_with_ctx c w w' :
  appends_at_most_one w w' -> appends_at_most_one w (with_ctx c w').
Proof. done. Qed.

Lemma Trace_update_appends r a w : appends_at_most_one w (Trace_update r a w).
Proof.
  unfold Trace_update. destruct (traces w !! r); [|by apply appends_same].
  by apply appends_gated.
Qed.

Lemma do_call_appends c w : appends_at_most_one w (do_call c w).2.
Proof.
  destruct c; simpl.
  - apply appends_with_ctx. unfold Trace_init, Trace__send_create.
    by apply appends_gated_neg.
  - unfold Span_init, Span__send_create. by apply appends_gated_neg.
  - unfold Generation_init, Generation__send_create.
    by apply appends_gated_neg.
  - apply Trace_update_appends.
  - unfold Trace_end. destruct (traces w !! r); [|by apply appends_same].
    destruct (trace_ended t); [by apply appends_same|].
    apply appends_with_ctx.
    match goal with
    | |- appends_at_most_one _ (Trace_update ?r ?a ?w1) =>
        destruct (Trace_update_appends r a w1) as (evs & H1 & H2 & H3 & H4 & H5)
    end.
    exists evs. done.
  - unfold Span_end. destruct (spans w !! r); [|by apply appends_same].
    destruct (span_ended s); [by apply appends_same|]. by apply appends_gated.
  - unfold Generation_end.
    destruct (generations w !! r); [|by apply appends_same].
    destruct (gen_ended g); [by apply appends_same|]. by apply appends_gated.
  - unfold AgentTrace_score. by apply appends_gated_neg.
  - unfold Trace_score, AgentTrace_score. by apply appends_gated_neg.
Qed.

Lemma do_calls_cons c cs w :
  (do_calls (c :: cs) w).2 = (do_calls cs (do_call c w).2).2.
Proof.
  simpl. destruct (do_call c w) as [v w1]. simpl.
  by destruct (do_calls cs w1).
Qed.

Lemma do_calls_appends cs : forall w,
  exists evs, queued (do_calls cs w).2 = queued w ++ evs /\
              (length evs <= length cs)%nat /\
              BatchQueue.sent (_batch_queue (do_calls cs w).2)
              = BatchQueue.sent (_batch_queue w) /\
              BatchQueue._batch (_batch_queue (do_calls cs w).2)
              = BatchQueue._batch (_batch_queue w) /\
              enabled (do_calls cs w).2 = enabled w.
Proof.
  induction cs as [|c cs IH]; intros w.
  - exists []. simpl. rewrite app_nil_r. repeat split; try done.
  - rewrite do_calls_cons.
    destruct (do_call_appends c w) as (e1 & H1 & L1 & S1 & B1 & E1).
    destruct (IH (do_call c w).2) as (e2 & H2 & L2 & S2 & B2 & E2).
    exists (e1 ++ e2). rewrite H2, H1, <- app_assoc, length_app. simpl.
    repeat split; try congruence. lia.
Qed.

(** X18. The calls of the tracing interface only ever append to the
    queue of the client, one record per call at most: the records that
    were waiting stay where they are, as their types and ids show, the
    worker's batch and what the transport received are not touched, no
    call sends anything itself, and the [enabled] flag does not change. *)
Theorem calls_only_append_to_the_queue (cs : list call) w :
  (record_key <$> queued w) `prefix_of` (record_key <$> queued (do_calls cs w).2) /\
  (length (queued (do_calls cs w).2) <= length (queued w) + length cs)%nat /\
  BatchQueue.sent (_batch_queue (do_calls cs w).2)
  = BatchQueue.sent (_batch_queue w) /\
  BatchQueue._batch (_batch_queue (do_calls cs w).2)
  = BatchQueue._batch (_batch_queue w) /\
  enabled (do_calls cs w).2 = enabled w.
Proof.
  destruct (do_calls_appends cs w) as (evs & Hq & Hl & Hs & Hb & He).
  rewrite Hq, length_app, fmap_app. repeat split; try done.
  - by eexists.
  - lia.
Qed.

(** X19. With nothing in the worker's batch, [AgentTrace.flush] after any
    calls hands the transport everything that waits in the queue, in the
    order of the calls, leaving nothing behind; and [shutdown] sends
    exactly what [flush] sends, its second flush finding nothing, and
    stops the worker. *)
Theorem flush_after_calls_sends_in_call_order (cs : list call) w :
  BatchQueue._batch (_batch_queue w) = [] ->
  let w' := (do_calls cs w).2 in
  BatchQueue.delivered (_batch_queue (AgentTrace_flush w'))
  = BatchQueue.delivered (_batch_queue w) ++ queued w' /\
  queued (AgentTrace_flush w') = [] /\
  BatchQueue.sent (_batch_queue (AgentTrace_shutdown w'))
  = BatchQueue.sent (_batch_queue (AgentTrace_flush w')) /\
  BatchQueue._running (_batch_queue (AgentTrace_shutdown w')) = false.
Proof.
  intros Hb w'.
  destruct (do_calls_appends cs w) as (evs & Hq & Hl & Hs & Hb' & He).
  fold w' in Hq, Hs, Hb'. rewrite Hb in Hb'.
  split.
  { unfold AgentTrace_flush. simpl.
    rewrite flush_delivers_queue_then_batch, Hb', app_nil_r.
    unfold BatchQueue.delivered, queued. by rewrite Hs. }
  unfold AgentTrace_shutdown, AgentTrace_flush, queued. simpl.
  unfold BatchQueue.stop, BatchQueue.flush, BatchQueue._send_batch. simpl.
  rewrite Hb', app_nil_r.
  by destruct (BatchQueue._queue (_batch_queue w')).
Qed.

End CallsAndQueue.

(** The theorem at the scenario of the specification on an enabled
    client: one batch of four records, in the order of the calls. *)
Lemma flush_after_calls_sends_in_call_order_witness :
  let w := client.with_enabled true demo_disabled in
  BatchQueue._batch (client._batch_queue w) = [] /\
  ev_type <$> BatchQueue.delivered
    (client._batch_queue (client.AgentTrace_flush (client.do_calls demo_calls w).2))
  = ["trace-create"; "generation-create"; "generation-update"; "trace-update"].
Proof.
  intros w. split; [reflexivity|].
  rewrite (proj1 (flush_after_calls_sends_in_call_order demo_calls w eq_refl)).
  reflexivity.
Defined.

Section Objects.
Import client.
Implicit Types (w : World).

Lemma fresh_not_in {A} (m : gmap nat A) : m !! fresh (dom m) = None.
Proof. apply not_elem_of_dom, is_fresh. Qed.

Lemma enqueue_consistent e w : consistent w -> consistent (enqueue e w).
Proof. done. Qed.

Lemma Trace_update_consistent r a w :
  consistent w -> consistent (Trace_update r a w).
Proof.
  intros (Ht & Hs & Hg). unfold Trace_update.
  destruct (traces w !! r) as [t|] eqn:Hl; [|done].
  assert (consistent (with_traces (<[r:=apply_update a t]> (traces w)) w)) as Hc.
  { split; [|done]. simpl. apply map_Forall_insert_2; [|done].
    apply (Ht r t Hl). }
  simpl. by destruct (enabled w).
Qed.

Lemma do_call_consistent c w : consistent w -> consistent (do_call c w).2.
Proof.
  intros Hc. pose proof Hc as (Ht & Hs & Hg). destruct c; simpl.
  - unfold Trace_init, Trace__send_create. simpl.
    assert (consistent (with_traces
              (<[fresh (dom (traces w)) :=
                   mkTrace (str_or (ta_id a) uuid4) (ta_name a) (ta_user_id a)
                     (ta_session_id a) (dict_or_empty (ta_metadata a))
                     (default [] (ta_tags a)) (ta_input a) (ta_public a) now
                     None VNone false]> (traces w)) w)) as Hc'.
    { split; [|done]. simpl. by apply map_Forall_insert_2. }
    by destruct (enabled w).
  - unfold Span_init, Span__send_create. simpl.
    assert (consistent (with_spans
              (<[fresh (dom (spans w)) :=
                   mkSpan (id_of_trace r w) (str_or (sa_id a) uuid4) (sa_name a)
                     (sa_parent_observation_id a) (dict_or_empty (sa_metadata a))
                     (sa_input a) (sa_level a) VNone now None false]>
                 (spans w)) w)) as Hc'.
    { split; [done|]. split; [|done]. simpl. by apply map_Forall_insert_2. }
    by destruct (enabled w).
  - unfold Generation_init, Generation__send_create. simpl.
    assert (consistent (with_generations
              (<[fresh (dom (generations w)) :=
                   mkGeneration (id_of_trace r w) (str_or (ga_id a) uuid4)
                     (ga_name a) (ga_parent_observation_id a) (ga_model a)
                     (dict_or_empty (ga_model_parameters a)) (ga_input a)
                     (dict_or_empty (ga_metadata a)) (ga_level a) VNone now
                     None VNone false]> (generations w)) w)) as Hc'.
    { split; [done|]. split; [done|]. simpl. by apply map_Forall_insert_2. }
    by destruct (enabled w).
  - by apply Trace_update_consistent.
  - unfold Trace_end. destruct (traces w !! r) as [t|] eqn:Hl; [|done].
    destruct (trace_ended t); [done|].
    match goal with
    | |- consistent (with_ctx _ (Trace_update ?r ?a ?w1)) =>
        assert (consistent (Trace_update r a w1)) as Hc'
    end; [|done].
    apply Trace_update_consistent. split; [|done]. simpl.
    by apply map_Forall_insert_2.
  - unfold Span_end. destruct (spans w !! r) as [sp|] eqn:Hl; [|done].
    destruct (span_ended sp); [done|].
    match goal with
    | |- consistent (if _ then enqueue _ ?w1 else _) =>
        assert (consistent w1) as Hc'
    end; [|by destruct (enabled _)].
    split; [done|]. split; [|done]. simpl. by apply map_Forall_insert_2.
  - unfold Generation_end.
    destruct (generations w !! r) as [g|] eqn:Hl; [|done].
    destruct (gen_ended g); [done|].
    match goal with
    | |- consistent (if _ then enqueue _ ?w1 else _) =>
        assert (consistent w1) as Hc'
    end; [|by destruct (enabled _)].
    split; [done|]. split; [done|]. simpl. by apply map_Forall_insert_2.
  - unfold AgentTrace_score. by destruct (enabled w).
  - unfold Trace_score, AgentTrace_score. by destruct (enabled w).
Qed.

(** X20. Whatever calls are made, an object is marked as ended exactly
    when it has an end time: the calls keep this true of every trace,
    span and generation. *)
Theorem ended_iff_end_time_is_kept (cs : list call) w :
  consistent w -> consistent (do_calls cs w).2.
Proof.
  revert w. induction cs as [|c cs IH]; intros w Hc; [done|].
  rewrite do_calls_cons. by apply IH, do_call_consistent.
Qed.

Lemma do_call_keeps_ended_span c w r sp :
  spans w !! r = Some sp -> span_ended sp = true ->
  spans (do_call c w).2 !! r = Some sp.
Proof.
  intros Hl He. destruct c; simpl; try done.
  - unfold Trace_init, Trace__send_create. simpl. by destruct (enabled w).
  - unfold Span_init, Span__send_create. simpl.
    assert (fresh (dom (spans w)) <> r) as Hne.
    { intros <-. by rewrite fresh_not_in in Hl. }
    destruct (enabled w); simpl; by rewrite lookup_insert_ne.
  - unfold Generation_init, Generation__send_create. simpl.
    by destruct (enabled w).
  - unfold Trace_update. destruct (traces w !! r0); [|done]. simpl.
    by destruct (enabled w).
  - unfold Trace_end. destruct (traces w !! r0); [|done].
    destruct (trace_ended t); [done|]. unfold Trace_update. simpl.
    rewrite lookup_insert_eq. simpl. by destruct (enabled w).
  - unfold Span_end. destruct (spans w !! r0) as [sp0|] eqn:Hl0; [|done].
    destruct (span_ended sp0) eqn:He0; [done|].
    assert (r0 <> r) as Hne by (intros ->; congruence).
    simpl. destruct (enabled w); simpl; by rewrite lookup_insert_ne.
  - unfold Generation_end. destruct (generations w !! r0); [|done].
    destruct (gen_ended g); [done|]. simpl. by destruct (enabled w).
  - unfold AgentTrace_score. by destruct (enabled w).
  - unfold Trace_score, AgentTrace_score. by destruct (enabled w).
Qed.

Lemma do_call_keeps_ended_generation c w r g :
  generations w !! r = Some g -> gen_ended g = true ->
  generations (do_call c w).2 !! r = Some g.
Proof.
  intros Hl He. destruct c; simpl; try done.
  - unfold Trace_init, Trace__send_create. simpl. by destruct (enabled w).
  - unfold Span_init, Span__send_create. simpl. by destruct (enabled w).
  - unfold Generation_init, Generation__send_create. simpl.
    assert (fresh (dom (generations w)) <> r) as Hne.
    { intros <-. by rewrite fresh_not_in in Hl. }
    destruct (enabled w); simpl; by rewrite lookup_insert_ne.
  - unfold Trace_update. destruct (traces w !! r0); [|done]. simpl.
    by destruct (enabled w).
  - unfold Trace_end. destruct (traces w !! r0); [|done].
    destruct (trace_ended t); [done|]. unfold Trace_update. simpl.
    rewrite lookup_insert_eq. simpl. by destruct (enabled w).
  - unfold Span_end. destruct (spans w !! r0); [|done].
    destruct (span_ended s); [done|]. simpl. by destruct (enabled w).
  - unfold Generation_end.
    destruct (generations w !! r0) as [g0|] eqn:Hl0; [|done].
    destruct (gen_ended g0) eqn:He0; [done|].
    assert (r0 <> r) as Hne by (intros ->; congruence).
    simpl. destruct (enabled w); simpl; by rewrite lookup_insert_ne.
  - unfold AgentTrace_score. by destruct (enabled w).
  - unfold Trace_score, AgentTrace_score. by destruct (enabled w).
Qed.

Lemma Trace_update_same_end (r0 : trace_ref) a w (r : trace_ref) t :
  traces w !! r = Some t -> trace_ended t = true ->
  exists t', traces (Trace_update r0 a w) !! r = Some t' /\ same_end t t'.
Proof.
  intros Hl He. unfold same_end, Trace_update.
  destruct (traces w !! r0) as [t0|] eqn:Hl0; [|by exists t].
  destruct (decide (r0 = r)) as [->|Hne].
  - exists (apply_update a t0).
    assert (t0 = t) as ->
      by (apply (inj Some); etrans; [symmetry; exact Hl0|exact Hl]).
    split; [|done]. simpl. destruct (enabled w); simpl; by rewrite lookup_insert_eq.
  - exists t. split; [|done]. simpl.
    destruct (enabled w); simpl; by rewrite lookup_insert_ne.
Qed.

Lemma do_call_keeps_ended_trace c w (r : trace_ref) t :
  traces w !! r = Some t -> trace_ended t = true ->
  exists t', traces (do_call c w).2 !! r = Some t' /\ same_end t t'.
Proof.
  intros Hl He. unfold same_end. destruct c; simpl.
  - unfold Trace_init, Trace__send_create. simpl.
    assert (fresh (dom (traces w)) <> r) as Hne.
    { intros <-. by rewrite fresh_not_in in Hl. }
    exists t. split; [|done].
    destruct (enabled w); simpl; by rewrite lookup_insert_ne.
  - unfold Span_init, Span__send_create. simpl. exists t.
    by destruct (enabled w).
  - unfold Generation_init, Generation__send_create. simpl. exists t.
    by destruct (enabled w).
  - by apply Trace_update_same_end.
  - unfold Trace_end. destruct (traces w !! r0) as [t0|] eqn:Hl0; [|by exists t].
    destruct (trace_ended t0) eqn:He0; [by exists t|].
    assert (r0 <> r) as Hne by (intros ->; congruence).
    simpl.
    match goal with
    | |- context [Trace_update ?r1 ?a ?w1] =>
        destruct (Trace_update_same_end r1 a w1 r t) as (t' & H1 & H2)
    end; [by simpl; rewrite lookup_insert_ne|done|].
    by exists t'.
  - unfold Span_end. destruct (spans w !! r0); [|by exists t].
    destruct (span_ended s); [by exists t|]. simpl. exists t.
    by destruct (enabled w).
  - unfold Generation_end. destruct (generations w !! r0); [|by exists t].
    destruct (gen_ended g); [by exists t|]. simpl. exists t.
    by destruct (enabled w).
  - unfold AgentTrace_score. exists t. by destruct (enabled w).
  - unfold Trace_score, AgentTrace_score. exists t. by destruct (enabled w).
Qed.

Lemma do_calls_keep_ended_observations (cs : list call) : forall w (r : nat),
  (forall sp, spans w !! r = Some sp -> span_ended sp = true ->
              spans (do_calls cs w).2 !! r = Some sp) /\
  (forall g, generations w !! r = Some g -> gen_ended g = true ->
             generations (do_calls cs w).2 !! r = Some g).
Proof.
  induction cs as [|c cs IH]; intros w r; [done|].
  rewrite do_calls_cons. destruct (IH (do_call c w).2 r) as (Is & Ig).
  split.
  - intros sp Hl He. apply Is; [|done]. by apply do_call_keeps_ended_span.
  - intros g Hl He. apply Ig; [|done].
    by apply do_call_keeps_ended_generation.
Qed.

(** X21. Ended is final for every sequence of calls. A span or a
    generation that has ended is never removed and keeps every field it
    has beside its metadata dictionary: the ended flag, the end time,
    the output and the others. A trace that has ended stays ended and
    keeps its end time, its id and its start time. *)
Theorem ended_objects_are_final (cs : list call) w (r : nat) :
  (forall sp, spans w !! r = Some sp -> span_ended sp = true ->
              exists sp', spans (do_calls cs w).2 !! r = Some sp' /\
                          span_but_metadata sp' = span_but_metadata sp) /\
  (forall g, generations w !! r = Some g -> gen_ended g = true ->
             exists g', generations (do_calls cs w).2 !! r = Some g' /\
                        generation_but_metadata g' = generation_but_metadata g) /\
  (forall t, traces w !! r = Some t -> trace_ended t = true ->
             exists t', traces (do_calls cs w).2 !! r = Some t' /\
                        trace_ended t' = true /\
                        trace_end_time t' = trace_end_time t /\
                        trace_id t' = trace_id t /\
                        trace_start_time t' = trace_start_time t).
Proof.
  split; [|split].
  - intros sp Hl He. exists sp. split; [|done].
    by apply (do_calls_keep_ended_observations cs w r).
  - intros g Hl He. exists g. split; [|done].
    by apply (do_calls_keep_ended_observations cs w r).
  - revert w. induction cs as [|c cs IH]; intros w t Hl He; [by exists t|].
    rewrite do_calls_cons.
    destruct (do_call_keeps_ended_trace c w r t Hl He)
      as (t1 & Hl1 & He1 & Ht1 & Hi1 & Hs1).
    destruct (IH _ t1 Hl1 He1) as (t' & Hl' & He' & Ht' & Hi' & Hs').
    exists t'. repeat split; congruence.
Qed.

(** X22. Creating a trace, a span or a generation takes a reference that
    was not in use and changes no object that exists: the objects of the
    other classes are the same, and so is every other object of the
    class. [client.trace] makes the new trace the current one;
    [trace.span] and [trace.generation] leave the context alone. *)
Theorem creation_changes_no_existing_object w (r : trace_ref) (uuid4 now : string) :
  (forall a,
      let res := AgentTrace_trace a uuid4 now w in
      traces w !! res.1 = None /\
      (forall r', r' <> res.1 -> traces res.2 !! r' = traces w !! r') /\
      spans res.2 = spans w /\ generations res.2 = generations w /\
      context.get_current_trace (ctx res.2) = Some res.1) /\
  (forall a,
      let res := Trace_span r a uuid4 now w in
      exists n, res.1 = SpanRef n /\ spans w !! n = None /\
        (forall r', r' <> n -> spans res.2 !! r' = spans w !! r') /\
        traces res.2 = traces w /\ generations res.2 = generations w /\
        ctx res.2 = ctx w) /\
  (forall a,
      let res := Trace_generation r a uuid4 now w in
      exists n, res.1 = GenerationRef n /\ generations w !! n = None /\
        (forall r', r' <> n -> generations res.2 !! r' = generations w !! r') /\
        traces res.2 = traces w /\ spans res.2 = spans w /\
        ctx res.2 = ctx w).
Proof.
  split; [|split]; intros a res; subst res.
  - unfold AgentTrace_trace, Trace_init, Trace__send_create. simpl.
    split; [apply fresh_not_in|].
    destruct (enabled w); simpl; repeat split; try done;
      intros r' Hne; by rewrite lookup_insert_ne.
  - exists (fresh (dom (spans w))).
    unfold Trace_span, Span_init, Span__send_create. simpl.
    split; [done|]. split; [apply fresh_not_in|].
    destruct (enabled w); simpl; repeat split; try done;
      intros r' Hne; by rewrite lookup_insert_ne.
  - exists (fresh (dom (generations w))).
    unfold Trace_generation, Generation_init, Generation__send_create. simpl.
    split; [done|]. split; [apply fresh_not_in|].
    destruct (enabled w); simpl; repeat split; try done;
      intros r' Hne; by rewrite lookup_insert_ne.
Qed.

End Objects.

(** The invariant holds of a new client, and so after the scenario. *)
Lemma ended_iff_end_time_is_kept_witness :
  consistent demo_disabled /\
  consistent (client.do_calls demo_calls demo_disabled).2.
Proof.
  assert (consistent demo_disabled) as H.
  { repeat split; apply map_Forall_empty. }
  split; [exact H|].
  exact (ended_iff_end_time_is_kept demo_calls demo_disabled H).
Defined.

(** ** The observe wrapper: the other paths *)

Section ObservePaths.
Import client decorators.
Implicit Types (w : World).

(** X23. Without a registered client, or with a disabled one, the
    wrapper is the wrapped function: same outcome, same world, no object
    created and no record enqueued by the wrapper. *)
Theorem observe_is_transparent_when_off (fn : user_fn) (captured : pyval)
    (name ty : string) (ci co : bool) (uuid4 n1 n2 : string) w :
  context.get_client (ctx w) = None \/ enabled w = false ->
  _trace_sync fn captured name ty ci co uuid4 n1 n2 w = fn w /\
  _trace_async fn captured name ty ci co uuid4 n1 n2 w = fn w.
Proof.
  intros H. unfold _trace_async, _trace_sync.
  destruct (context.get_client (ctx w)) eqn:Hc; [|done].
  destruct H as [H|H]; [done|]. by rewrite H.
Qed.

(** Ending a live object with no output keeps the output it has. *)
Lemma close_observation_keeps_output h now w :
  ended_of h w = Some false ->
  ended_of h (close_observation h VNone now w) = Some true /\
  output_of h (close_observation h VNone now w) = output_of h w.
Proof.
  unfold ended_of, output_of, close_observation, Observation_end.
  intros He. destruct (op_observation h) as [[r|r]|].
  - unfold Span_end. destruct (spans w !! r) as [sp|]; [|done].
    simpl in He. injection He as ->. simpl.
    destruct (enabled w); simpl; rewrite lookup_insert_eq; done.
  - unfold Generation_end. destruct (generations w !! r) as [g|]; [|done].
    simpl in He. injection He as ->. simpl.
    destruct (enabled w); simpl; rewrite lookup_insert_eq; done.
  - unfold Trace_end. destruct (traces w !! op_trace h) as [t|]; [|done].
    simpl in He. injection He as ->. simpl.
    unfold Trace_update. simpl. rewrite lookup_insert_eq. simpl.
    destruct (enabled w); simpl; rewrite lookup_insert_eq; simpl.
    + by destruct (is_not_None (trace_output t)).
    + by destruct (is_not_None (trace_output t)).
Qed.

Lemma _trace_sync_return_world fn captured name ty ci co uuid4 n1 n2 w v :
  context.get_client (ctx w) <> None -> enabled w = true ->
  (fn (world_at_call captured name ty ci uuid4 n1 w)).2 = Return v ->
  (_trace_sync fn captured name ty ci co uuid4 n1 n2 w).1
  = close_observation
      (open_observation name ty (if ci then captured else VNone) uuid4 n1 w).1
      (if co then v else VNone) n2
      (fn (world_at_call captured name ty ci uuid4 n1 w)).1.
Proof.
  unfold _trace_sync, world_at_call. intros Hc Hen.
  destruct (context.get_client (ctx w)); [|done].
  rewrite Hen. simpl.
  destruct (open_observation _ _ _ _ _ _) as [h w1]. simpl.
  destruct (fn w1) as [w2 [v'|e']]; simpl; [|done].
  by intros [= ->].
Qed.

(** X24. On the success path, with a registered and enabled client, the
    wrapper ends its observation once, in the world the function left,
    with the returned value as output when [capture_output] is set; the
    object, not ended by the function itself, is then ended, holds the
    returned value if that is captured and not [None], and keeps the
    output it had otherwise. *)
Theorem observe_ends_with_the_result (fn : user_fn) (captured : pyval)
    (name ty : string) (ci co : bool) (uuid4 n1 n2 : string) w (v : pyval) :
  context.get_client (ctx w) <> None -> enabled w = true ->
  (fn (world_at_call captured name ty ci uuid4 n1 w)).2 = Return v ->
  let w2 := (fn (world_at_call captured name ty ci uuid4 n1 w)).1 in
  let h := (open_observation name ty (if ci then captured else VNone)
              uuid4 n1 w).1 in
  let final := (_trace_sync fn captured name ty ci co uuid4 n1 n2 w).1 in
  final = close_observation h (if co then v else VNone) n2 w2 /\
  (ended_of h w2 = Some false ->
   ended_of h final = Some true /\
   (co = true -> is_not_None v = true -> output_of h final = Some v) /\
   (co = false \/ v = VNone -> output_of h final = output_of h w2)).
Proof.
  intros Hc Hen Hret w2 h final.
  assert (final = close_observation h (if co then v else VNone) n2 w2) as Hf
    by (by apply _trace_sync_return_world).
  split; [done|]. intros Hlive. rewrite Hf.
  destruct co.
  - destruct (is_not_None v) eqn:Hv.
    + destruct (close_observation_ends h v n2 w2 Hlive Hv) as [He Ho].
      repeat split; try done. intros [?| ->]; done.
    + assert (v = VNone) as -> by (by destruct v).
      destruct (close_observation_keeps_output h n2 w2 Hlive) as [He Ho].
      repeat split; done.
  - destruct (close_observation_keeps_output h n2 w2 Hlive) as [He Ho].
    repeat split; done.
Qed.

Lemma open_observation_parent name ty input_data uuid4 now w (r : trace_ref) :
  context.get_current_trace (ctx w) = Some r ->
  exists o,
    op_observation (open_observation name ty input_data uuid4 now w).1 = Some o /\
    parent_of o (open_observation name ty input_data uuid4 now w).2
    = Some ((fun p => id_of_observation p w)
              <$> context.get_current_observation (ctx w)) /\
    ctx (open_observation name ty input_data uuid4 now w).2 = ctx w /\
    (forall p, observation_stored p w ->
               id_of_observation p
                 (open_observation name ty input_data uuid4 now w).2
               = id_of_observation p w).
Proof.
  intros Hcur. unfold open_observation. rewrite Hcur.
  destruct (String.eqb ty "generation").
  - unfold Trace_generation, Generation_init, Generation__send_create. simpl.
    eexists. split; [done|].
    assert (forall n x, generations w !! n = Some x ->
                        fresh (dom (generations w)) <> n) as Hfresh.
    { intros n x Hx <-. by rewrite fresh_not_in in Hx. }
    destruct (enabled w); simpl; rewrite lookup_insert_eq; simpl;
      (split; [by destruct (context.get_current_observation (ctx w))|]);
      (split; [done|]); intros [n|n] [x Hx]; simpl in *; try done;
      by rewrite lookup_insert_ne by (by eapply Hfresh).
  - unfold Trace_span, Span_init, Span__send_create. simpl.
    eexists. split; [done|].
    assert (forall n x, spans w !! n = Some x ->
                        fresh (dom (spans w)) <> n) as Hfresh.
    { intros n x Hx <-. by rewrite fresh_not_in in Hx. }
    destruct (enabled w); simpl; rewrite lookup_insert_eq; simpl;
      (split; [by destruct (context.get_current_observation (ctx w))|]);
      (split; [done|]); intros [n|n] [x Hx]; simpl in *; try done;
      by rewrite lookup_insert_ne by (by eapply Hfresh).
Qed.

(** X25. The wrapper does not make its observation the current one: the
    wrapped function runs with the current observation it was called
    with. So, inside a trace, an observed function called from another
    observed function gets the parent of its caller's observation, not
    that observation: the two are siblings. *)
Theorem nested_observed_calls_are_siblings
    (name1 ty1 : string) (in1 : pyval) (u1 t1 : string)
    (name2 ty2 : string) (in2 : pyval) (u2 t2 : string) w (r : trace_ref) :
  context.get_current_trace (ctx w) = Some r ->
  (forall p, context.get_current_observation (ctx w) = Some p ->
             observation_stored p w) ->
  let outer := open_observation name1 ty1 in1 u1 t1 w in
  let inner := open_observation name2 ty2 in2 u2 t2 outer.2 in
  context.get_current_observation (ctx outer.2)
  = context.get_current_observation (ctx w) /\
  exists a b,
    op_observation outer.1 = Some a /\ op_observation inner.1 = Some b /\
    parent_of b inner.2 = parent_of a outer.2.
Proof.
  intros Hcur Hlive outer inner.
  destruct (open_observation_parent name1 ty1 in1 u1 t1 w r Hcur)
    as (a & Ha & Hpa & Hctx & Hid).
  fold outer in Ha, Hpa, Hctx, Hid.
  assert (context.get_current_trace (ctx outer.2) = Some r) as Hcur'
    by (by rewrite Hctx).
  destruct (open_observation_parent name2 ty2 in2 u2 t2 outer.2 r Hcur')
    as (b & Hb & Hpb & _ & _).
  fold inner in Hb, Hpb.
  split; [by rewrite Hctx|]. exists a, b. split; [done|]. split; [done|].
  rewrite Hpb, Hpa, Hctx.
  destruct (context.get_current_observation (ctx w)) as [p|] eqn:Hp; [|done].
  simpl. by rewrite Hid by (by apply Hlive).
Qed.

End ObservePaths.

(** The transparency theorem at a disabled client. *)
Lemma observe_is_transparent_when_off_witness :
  (context.get_client (client.ctx demo_disabled) = None
   \/ client.enabled demo_disabled = false) /\
  decorators._trace_sync raising_fn VNone "work" "span" true true
    "uuid-6" "2024-01-01T00:00:04" "2024-01-01T00:00:05" demo_disabled
  = raising_fn demo_disabled.
Proof.
  assert (context.get_client (client.ctx demo_disabled) = None
          \/ client.enabled demo_disabled = false) as H
    by (right; reflexivity).
  split; [exact H|].
  exact (proj1 (observe_is_transparent_when_off raising_fn VNone "work" "span"
                  true true "uuid-6" "2024-01-01T00:00:04"
                  "2024-01-01T00:00:05" demo_disabled H)).
Defined.

(** The success theorem at [demo_traced]: the span ends with 42. *)
Lemma observe_ends_with_the_result_witness :
  let res := decorators._trace_sync returning_fn VNone "work" "span" true true
               "uuid-6" "2024-01-01T00:00:04" "2024-01-01T00:00:05"
               demo_traced in
  context.get_client (client.ctx demo_traced) <> None /\
  client.enabled demo_traced = true /\
  res.2 = Return (VInt 42) /\
  client.span_output <$> client.spans res.1 !! 0%nat = Some (VInt 42).
Proof.
  intros res.
  assert (context.get_client (client.ctx demo_traced) <> None) as Hc
    by discriminate.
  split; [exact Hc|]. split; [reflexivity|]. split; [reflexivity|].
  destruct (observe_ends_with_the_result returning_fn VNone "work" "span"
              true true "uuid-6" "2024-01-01T00:00:04" "2024-01-01T00:00:05"
              demo_traced (VInt 42) Hc eq_refl eq_refl) as [_ H].
  destruct (H eq_refl) as (_ & Ho & _).
  exact (Ho eq_refl eq_refl).
Defined.

(** The sibling theorem at [demo_in_span], where span ["S"] is current:
    both observations get ["S"] as parent. *)
Lemma nested_observed_calls_are_siblings_witness :
  let outer := decorators.open_observation "outer" "span" VNone "uuid-7"
                 "2024-01-01T00:00:04" demo_in_span in
  let inner := decorators.open_observation "inner" "span" VNone "uuid-8"
                 "2024-01-01T00:00:05" outer.2 in
  context.get_current_trace (client.ctx demo_in_span) = Some 0%nat /\
  client.parent_of (client.SpanRef 1) outer.2 = Some (Some "S") /\
  client.parent_of (client.SpanRef 2) inner.2 = Some (Some "S") /\
  exists a b,
    decorators.op_observation outer.1 = Some a /\
    decorators.op_observation inner.1 = Some b /\
    client.parent_of b inner.2 = client.parent_of a outer.2.
Proof.
  intros outer inner. split; [reflexivity|]. split; [reflexivity|].
  split; [reflexivity|].
  refine (proj2 (nested_observed_calls_are_siblings "outer" "span" VNone
                   "uuid-7" "2024-01-01T00:00:04" "inner" "span" VNone "uuid-8"
                   "2024-01-01T00:00:05" demo_in_span 0%nat eq_refl _)).
  intros p Hp. injection Hp as <-. simpl. eexists. reflexivity.
Defined.

(** ** Host names and serialized arguments *)

Section Strings.
Import HttpTransport.
Import Stdlib.Strings.Ascii.

Lemma rstrip_slash_empty s :
  rstrip_slash s = EmptyString -> exists k, s = slashes k.
Proof.
  induction s as [|c s IH]; simpl; [by exists 0%nat|].
  destruct (rstrip_slash s) eqn:Hr; [|discriminate].
  destruct (Ascii.eqb_spec c "/"%char) as [->|]; [|discriminate].
  intros _. destruct IH as [k ->]; [done|]. by exists (S k).
Qed.

Lemma ends_with_slash_cons c s :
  s <> EmptyString -> ends_with_slash (String c s) = ends_with_slash s.
Proof. by destruct s. Qed.

Lemma rstrip_slash_no_slash s : ends_with_slash (rstrip_slash s) = false.
Proof.
  induction s as [|c s IH]; simpl; [done|].
  destruct (rstrip_slash s) as [|c' r] eqn:Hr.
  - destruct (Ascii.eqb c "/"%char) eqn:Hc; simpl; [done|]. by rewrite Hc.
  - by rewrite ends_with_slash_cons.
Qed.

Lemma rstrip_slash_decomp s : exists k, s = rstrip_slash s +:+ slashes k.
Proof.
  induction s as [|c s [k IH]]; simpl; [by exists 0%nat|].
  destruct (rstrip_slash s) as [|c' r] eqn:Hr.
  - destruct (Ascii.eqb_spec c "/"%char) as [->|].
    + exists (S k). change (s = slashes k) in IH.
      change (String "/" s = String "/" (slashes k)). by f_equal.
    + exists k. change (s = slashes k) in IH.
      change (String c s = String c (slashes k)). by f_equal.
  - exists k. change (String c s = String c (String c' r +:+ slashes k)).
    by f_equal.
Qed.

Lemma rstrip_slash_fixed s : ends_with_slash s = false -> rstrip_slash s = s.
Proof.
  induction s as [|c s IH]; simpl; [done|].
  destruct s as [|c' s'].
  - simpl. by intros ->.
  - intros H. rewrite IH by done. done.
Qed.

(** X26. [host.rstrip("/")], applied to the host of the client and of
    the transport, removes the slashes at the end and nothing else: the
    host is the result followed by slashes only, the result does not end
    with a slash, and a host that does not end with a slash is kept as it
    is. *)
Theorem rstrip_slash_removes_trailing_slashes (host : string) :
  (exists k, host = rstrip_slash host +:+ slashes k) /\
  ends_with_slash (rstrip_slash host) = false /\
  rstrip_slash (rstrip_slash host) = rstrip_slash host /\
  (ends_with_slash host = false -> rstrip_slash host = host).
Proof.
  split; [apply rstrip_slash_decomp|].
  split; [apply rstrip_slash_no_slash|].
  split; [apply rstrip_slash_fixed, rstrip_slash_no_slash|].
  apply rstrip_slash_fixed.
Qed.

Example rstrip_slash_host :
  rstrip_slash "https://api.agenttrace.io//" = "https://api.agenttrace.io".
Proof. reflexivity. Qed.

End Strings.

Section SerializedValues.
Import decorators.




Example _serialize_value_nested :
  _serialize_value
    (OTuple [OInt 1; ODict [(OStr "k", OOther None)]; OOther (Some "obj")]) =
  OList [OInt 1; ODict [(OStr "k", OStr "<unserializable>")]; OStr "obj"].
Proof. reflexivity. Qed.

End SerializedValues.

(** ** The generation context manager *)

Section GenerationBlocks.
Import client decorators generation.
Implicit Types (w : World) (c : GenerationContext).




(** X29. [GenerationContext.update] sends nothing: the queue holds the
    same number of records, of the same types, and the context is as
    before. What it assigned is sent by the [end()]
    that follows: on an enabled client whose queue has room, [end()]
    without arguments appends one [generation-update] record that holds
    the output, the usage and the model given to [update], or those of
    the generation where [update] was given [None]. The record has no
    metadata. *)
Theorem generation_update_is_sent_by_end c (r : nat) (g : Generation)
    (output usage : pyval) (model : option string) (metadata : option pydict)
    (now : string) w :
  _generation c = Some r -> _ended c = false ->
  generations w !! r = Some g -> gen_ended g = false ->
  enabled w = true -> has_room w ->
  let w1 := GenerationContext_update output usage model metadata c w in
  let w2 := (GenerationContext_end VNone VNone None now c w1).2 in
  (ev_type <$> queued w1) = (ev_type <$> queued w) /\
  ctx w1 = ctx w /\
  (ev_type <$> queued w2) = (ev_type <$> queued w) ++ ["generation-update"] /\
  last (queued w2) =
    Some (mkEvent "generation-update"
            [("id", VStr (gen_id g));
             ("output", if is_not_None output then output else gen_output g);
             ("usage", if is_not_None usage then usage else gen_usage g);
             ("model", opt_str (match model with
                                | Some m => Some m
                                | None => gen_model g end));
             ("endTime", iso_z now)]).
Proof.
  intros Hg Hne Hl He Hen Hroom w1 w2.
  assert (w1 = with_generations
                 (<[r := mkGeneration (gen_trace_id g) (gen_id g) (gen_name g)
                           (gen_parent_observation_id g)
                           (match model with
                            | Some m => Some m | None => gen_model g end)
                           (gen_model_parameters g) (gen_input g)
                           (match metadata with
                            | Some m => dict_update (gen_metadata g) m
                            | None => gen_metadata g end)
                           (gen_level g)
                           (if is_not_None output then output else gen_output g)
                           (gen_start_time g) (gen_end_time g)
                           (if is_not_None usage then usage else gen_usage g)
                           (gen_ended g)]> (generations w)) w) as Hw1.
  { subst w1. unfold GenerationContext_update. by rewrite Hg, Hne, Hl. }
  split; [by rewrite Hw1|]. split; [by rewrite Hw1|].
  assert (queued w2 = queued w ++
    [mkEvent "generation-update"
       [("id", VStr (gen_id g));
        ("output", if is_not_None output then output else gen_output g);
        ("usage", if is_not_None usage then usage else gen_usage g);
        ("model", opt_str (match model with
                           | Some m => Some m
                           | None => gen_model g end));
        ("endTime", iso_z now)]]) as Hq.
  { subst w2. unfold GenerationContext_end. rewrite Hg, Hne. simpl.
    unfold Generation_end. rewrite Hw1. simpl. rewrite lookup_insert_eq, He.
    simpl. rewrite Hen. unfold queued. simpl.
    change (queued (enqueue _ ?x) = _) with (queued (enqueue _ x) = queued w ++ _).
    unfold queued, enqueue, BatchQueue.add. simpl.
    unfold has_room in Hroom. simpl. unfold BatchQueue.full in *. simpl.
    rewrite Hroom. simpl. reflexivity. }
  rewrite Hq. split; [by rewrite fmap_app|]. by rewrite last_snoc.
Qed.

(** X30. [start_generation] followed by [end()] on the object it
    returned leaves the current observation as it was before the two
    calls, with or without an enabled client. After that [end()], every
    [update] and every further [end()] on the object changes nothing.
    A trace that [start_generation] had to create, there being no
    current trace, is still the current trace after [end()] and is not
    ended. *)
Theorem context_end_restores_and_is_final (a : generation_kwargs)
    (uuid4_trace now_trace uuid4 now : string) (output usage : pyval)
    (model : option string) (now_end : string) w :
  let started := start_generation a uuid4_trace now_trace uuid4 now w in
  let ended := GenerationContext_end output usage model now_end
                 started.1 started.2 in
  context.get_current_observation (ctx ended.2)
  = context.get_current_observation (ctx w) /\
  (forall o' u' m' md',
     GenerationContext_update o' u' m' md' ended.1 ended.2 = ended.2) /\
  (forall o' u' m' n',
     GenerationContext_end o' u' m' n' ended.1 ended.2 = ended) /\
  (context.get_client (ctx w) <> None -> enabled w = true ->
   context.get_current_trace (ctx w) = None ->
   context.get_current_trace (ctx ended.2) = Some (fresh (dom (traces w))) /\
   exists t, traces ended.2 !! fresh (dom (traces w)) = Some t /\
             trace_ended t = false /\ trace_name t = gk_name a).
Proof.
  intros started ended.
  assert (forall c w0, _generation c = None \/ _ended c = true ->
            (forall o' u' m' md', GenerationContext_update o' u' m' md' c w0 = w0) /\
            (forall o' u' m' n', GenerationContext_end o' u' m' n' c w0 = (c, w0)))
    as Hoff.
  { intros c w0 H. unfold GenerationContext_update, GenerationContext_end.
    destruct (_generation c); [|done]. destruct H as [?| ->]; done. }
  assert (_generation ended.1 = None \/ _ended ended.1 = true) as Hfin.
  { subst ended. unfold GenerationContext_end.
    destruct (_generation started.1) eqn:Hg; [|by left].
    destruct (_ended started.1) eqn:He; simpl; by right. }
  destruct (Hoff ended.1 ended.2 Hfin) as [Hu He].
  split; [|split; [exact Hu|split]].
  - subst ended started. unfold start_generation.
    destruct (context.get_client (ctx w)); [|done].
    destruct (enabled w) eqn:Hen; simpl; [|done].
    unfold GenerationContext_end.
    destruct (context.get_current_trace (ctx w)) as [tr|]; simpl;
      unfold Generation_end; simpl.
    + unfold Generation_init, Generation__send_create. simpl. rewrite Hen.
      simpl. rewrite lookup_insert_eq. simpl. rewrite Hen. done.
    + unfold Trace_init, Trace__send_create. simpl. rewrite Hen. simpl.
      unfold Generation_init, Generation__send_create. simpl. rewrite Hen.
      simpl. rewrite lookup_insert_eq. simpl. rewrite Hen. done.
  - intros o' u' m' n'. rewrite He. by destruct ended.
  - intros Hc Hen Htr. subst ended started. unfold start_generation.
    destruct (context.get_client (ctx w)); [|done]. rewrite Hen, Htr. simpl.
    unfold GenerationContext_end. simpl. unfold Generation_end. simpl.
    unfold Trace_init, Trace__send_create. simpl. rewrite Hen. simpl.
    unfold Generation_init, Generation__send_create. simpl. rewrite Hen.
    simpl. rewrite lookup_insert_eq. simpl. rewrite Hen. simpl.
    rewrite lookup_insert_eq. split; [done|]. eexists. done.
Qed.

End GenerationBlocks.


(** The theorem at the generation ["G"] of [demo_world]. *)
Lemma generation_update_is_sent_by_end_witness :
  let c := generation.mkGenerationContext (Some 0%nat) None false in
  let w1 := generation.GenerationContext_update (VStr "hello") VNone None
              (Some [("k", VInt 1)]) c demo_world in
  let w2 := (generation.GenerationContext_end VNone VNone None
               "2024-01-01T00:00:09" c w1).2 in
  has_room demo_world /\
  client.generations demo_world !! 0%nat = Some demo_generation /\
  last (queued w2) =
    Some (mkEvent "generation-update"
            [("id", VStr "G"); ("output", VStr "hello"); ("usage", VNone);
             ("model", VStr "gpt-4");
             ("endTime", VStr "2024-01-01T00:00:09Z")]).
Proof.
  intros c w1 w2. split; [reflexivity|]. split; [reflexivity|].
  destruct (generation_update_is_sent_by_end c 0%nat demo_generation
              (VStr "hello") VNone None (Some [("k", VInt 1)])
              "2024-01-01T00:00:09" demo_world
              eq_refl eq_refl eq_refl eq_refl eq_refl eq_refl)
    as (_ & _ & _ & Hlast).
  exact Hlast.
Defined.

(** [start_generation] on a client with no current trace: the trace it
    creates is named after the generation and stays open and current
    after [end()]. *)
Example start_generation_leaves_its_trace_open :
  let started := generation.start_generation demo_kwargs "uuid-7"
                   "2024-01-01T00:00:03" "uuid-8" "2024-01-01T00:00:04"
                   demo_client in
  let ended := generation.GenerationContext_end VNone VNone None
                 "2024-01-01T00:00:05" started.1 started.2 in
  context.get_current_trace (client.ctx ended.2) = Some 0%nat /\
  (client.trace_ended <$> client.traces ended.2 !! 0%nat) = Some false /\
  (client.trace_name <$> client.traces ended.2 !! 0%nat) = Some "chat" /\
  (ev_type <$> queued ended.2)
  = ["trace-create"; "generation-create"; "generation-update"].
Proof. vm_compute. done. Qed.
